(** * reddit-trend-analyzer: the trend analyzer and the Reddit client

    A shallow embedding of [src/trendAnalyzer.js] (class [TrendAnalyzer])
    and of the Reddit client that the application imports as
    [redditClient.js] (class [RedditClient]: [retryWithBackoff],
    [enforceRateLimit], [fetchHotPosts], [fetchComments],
    [fetchPostsWithComments]) and of the sentiment analyzer (class
    [SentimentAnalyzer]: [categorizeSentiment], [analyze],
    [analyzeComments], [getStatistics]), with the properties of the
    specification and further properties of the code stated over it.

    Conventions of the embedding:
    - a JavaScript string is a [string] whose characters are the code units
      below 256 (ASCII and Latin-1); text outside that range is not modelled;
    - a JavaScript number that the program uses as a counter, a score or a
      time stamp is an integer of [Z]; delays, which are multiplied by 1.5,
      are rationals of [Q]; the trending score, which needs a power with
      exponent 1.5, is a real number of [R];
    - an object used as a dictionary is the list of its own properties in
      insertion order, read through the prototype chain of [{}];
    - [Date.now()] and the upstream API are explicit arguments;
    - [console.log] output is not modelled. *)

From Stdlib Require Import ZArith QArith Qminmax Reals Lra Lia.
From Stdlib Require Import List String Ascii Sorted Permutation.
From stdpp Require Import base decidable list strings pretty gmap.

Import ListNotations.
Local Open Scope string_scope.
Local Open Scope Z_scope.
Local Open Scope list_scope.

(** ** JavaScript strings *)

Module Text.

Definition code (c : ascii) : N := N_of_ascii c.

Definition between (lo hi : N) (c : ascii) : bool :=
  ((lo <=? code c) && (code c <=? hi))%N.

Definition is_digit (c : ascii) : bool := between 48 57 c.
Definition is_ascii_upper (c : ascii) : bool := between 65 90 c.
Definition is_ascii_lower (c : ascii) : bool := between 97 122 c.

(** The Latin-1 capitals: U+00C0 .. U+00DE without the sign U+00D7. *)
Definition is_latin1_upper (c : ascii) : bool :=
  between 192 214 c || between 216 222 c.

Definition is_upper (c : ascii) : bool :=
  is_ascii_upper c || is_latin1_upper c.

(** [String.prototype.toLowerCase], one code unit at a time: on the code
    units below 256 every capital is 32 below its small letter. *)
Definition lower_char (c : ascii) : ascii :=
  if is_upper c then ascii_of_N (code c + 32) else c.

Fixpoint map_chars (f : ascii -> ascii) (s : string) : string :=
  match s with
  | EmptyString => EmptyString
  | String c s' => String (f c) (map_chars f s')
  end.

Definition toLowerCase (s : string) : string := map_chars lower_char s.

(** The class [\w] of a regular expression without the [u] flag. *)
Definition is_word (c : ascii) : bool :=
  is_digit c || is_ascii_upper c || is_ascii_lower c || (code c =? 95)%N.

(** The class [\s] on the code units below 256: TAB, LF, VT, FF, CR,
    SPACE and the no-break space U+00A0. *)
Definition is_space (c : ascii) : bool :=
  between 9 13 c || (code c =? 32)%N || (code c =? 160)%N.

(** [s.replace(/[^\w\s]/g, ' ')] *)
Definition blank_nonword (c : ascii) : ascii :=
  if is_word c || is_space c then c else " "%char.

Definition replace_nonword (s : string) : string := map_chars blank_nonword s.

(** [s.split(/\s+/)]: the pieces between the maximal runs of white space.
    [cur] is the piece being read, [in_run] tells that the previous
    character was white space. A run at the start or at the end of the
    text leaves an empty piece there, and the empty text splits into one
    empty piece, as in JavaScript. *)
Fixpoint split_from (cur : string) (in_run : bool) (s : string) : list string :=
  match s with
  | EmptyString => [cur]
  | String c s' =>
      if is_space c then
        if in_run then split_from EmptyString true s'
        else cur :: split_from EmptyString true s'
      else split_from (cur +:+ String c EmptyString) false s'
  end.

Definition split_whitespace (s : string) : list string :=
  split_from EmptyString false s.

Fixpoint all_chars (p : ascii -> bool) (s : string) : bool :=
  match s with
  | EmptyString => true
  | String c s' => p c && all_chars p s'
  end.

Fixpoint has_char (p : ascii -> bool) (s : string) : bool :=
  match s with
  | EmptyString => false
  | String c s' => p c || has_char p s'
  end.

(** [/^\d+$/.test(s)] *)
Definition is_numeric (s : string) : bool :=
  match s with
  | EmptyString => false
  | _ => all_chars is_digit s
  end.

(** [s.includes(pat)] *)
Fixpoint includes (pat s : string) : bool :=
  String.prefix pat s ||
  match s with
  | EmptyString => false
  | String _ s' => includes pat s'
  end.

(** The punctuation characters of ASCII: every printable character that
    is neither a letter, a digit nor the space. The underscore is one of
    them. *)
Definition is_punctuation (c : ascii) : bool :=
  between 33 47 c || between 58 64 c || between 91 96 c || between 123 126 c.

End Text.

(** ** JavaScript values and objects used as dictionaries *)

Module Js.

(** The values that the dictionaries of the program hold or read.
    [JFunction name] is the native function that [Object.prototype]
    binds to [name]; [JObjectPrototype] is [Object.prototype] itself. *)
Inductive value :=
| JUndefined
| JNaN
| JNum (n : Z)
| JStr (s : string)
| JFunction (name : string)
| JObjectPrototype.

(** An object created by [{}]: its own properties in insertion order.
    No key of the program is an array index (a canonical numeral), so
    [Object.entries] enumerates the properties in this order. *)
Definition object := list (string * value).

(** The methods that every [{}] inherits from [Object.prototype]. *)
Definition prototype_methods : list string :=
  [ "constructor"; "__defineGetter__"; "__defineSetter__"; "hasOwnProperty";
    "__lookupGetter__"; "__lookupSetter__"; "isPrototypeOf";
    "propertyIsEnumerable"; "toString"; "valueOf"; "toLocaleString" ].

Definition is_prototype_method (k : string) : bool :=
  existsb (String.eqb k) prototype_methods.

Fixpoint own (o : object) (k : string) : option value :=
  match o with
  | [] => None
  | (k', v) :: o' => if String.eqb k' k then Some v else own o' k
  end.

(** [o[k]]: an own property, or else what the prototype chain gives:
    the accessor [__proto__] returns the prototype, a method name
    returns the method, any other name is [undefined]. *)
Definition get (o : object) (k : string) : value :=
  match own o k with
  | Some v => v
  | None =>
      if String.eqb k "__proto__" then JObjectPrototype
      else if is_prototype_method k then JFunction k
      else JUndefined
  end.

Fixpoint put (o : object) (k : string) (v : value) : object :=
  match o with
  | [] => [(k, v)]
  | (k', v') :: o' =>
      if String.eqb k' k then (k', v) :: o' else (k', v') :: put o' k v
  end.

(** [o[k] = v] for a primitive [v] (a number or a string, the only
    values that the program assigns). The name [__proto__] reaches the
    setter of [Object.prototype], which ignores a primitive. A present
    property keeps its place, a new one goes to the end. *)
Definition set (o : object) (k : string) (v : value) : object :=
  if String.eqb k "__proto__" then o else put o k v.

Definition truthy (v : value) : bool :=
  match v with
  | JUndefined | JNaN => false
  | JNum n => negb (n =? 0)
  | JStr s => negb (String.eqb s "")
  | JFunction _ | JObjectPrototype => true
  end.

(** [a || b] *)
Definition or (a b : value) : value := if truthy a then a else b.

(** The name of the function that [Object.prototype] binds to a
    property: [constructor] is the function [Object], each other method
    bears the name of its property. *)
Definition method_name (k : string) : string :=
  if String.eqb k "constructor" then "Object" else k.

(** [String(v)]. A counter stays far below 10^21, where the decimal
    numeral is what JavaScript prints. *)
Definition to_string (v : value) : string :=
  match v with
  | JUndefined => "undefined"
  | JNaN => "NaN"
  | JNum n => pretty n
  | JStr s => s
  | JFunction name => "function " +:+ method_name name +:+ "() { [native code] }"
  | JObjectPrototype => "[object Object]"
  end.

Definition is_textual (v : value) : bool :=
  match v with
  | JStr _ | JFunction _ | JObjectPrototype => true
  | _ => false
  end.

(** [a + b]: the concatenation of the two texts as soon as one operand
    is a string or an object, the sum of two numbers otherwise. *)
Definition add (a b : value) : value :=
  if is_textual a || is_textual b then JStr (to_string a +:+ to_string b)
  else
    match a, b with
    | JNum x, JNum y => JNum (x + y)
    | _, _ => JNaN
    end.

(** [Number(v)], [None] standing for NaN. A string is a number only when
    it is a numeric literal; every string that the program builds
    contains the text of a native function or of [Object.prototype]
    ([program_object_extractKeywords], [program_object_mergeFrequencies]),
    which no numeric literal does, so the model gives NaN for every
    string. *)
Definition to_number (v : value) : option Z :=
  match v with
  | JNum n => Some n
  | _ => None
  end.

(** [a >= b]: false as soon as one side is NaN. *)
Definition ge (a b : value) : bool :=
  match to_number a, to_number b with
  | Some x, Some y => y <=? x
  | _, _ => false
  end.

(** [b - a < 0]: the test by which the comparator [(x, y) => y[1] - x[1]]
    leaves an entry of count [a] before an entry of count [b]; a NaN is
    not negative. *)
Definition gt (a b : value) : bool :=
  match to_number a, to_number b with
  | Some x, Some y => y <? x
  | _, _ => false
  end.

(** The mark of a string built from an inherited property: the text of
    a native function, or that of [Object.prototype]. *)
Definition native_text (s : string) : bool :=
  Text.includes "[native code]" s || Text.includes "[object Object]" s.

Definition keys (o : object) : list string := map fst o.

End Js.

(** ** The records that the client produces and the analyzer reads *)

(** A post as [fetchHotPosts] builds it. *)
Record Post := {
  subreddit : string;
  title : string;
  text : string;
  author : string;
  score : Z;
  upvote_ratio : Q;
  num_comments : Z;
  created_utc : Z;
  url : string;
  permalink : string;
  id : string
}.

(** A comment as [fetchComments] builds it. *)
Record Comment := {
  comment_author : string;
  body : string;
  comment_score : Z;
  comment_created_utc : Z
}.

(** An error as the program reads it. Every error that reaches the program
    is an instance of [Error], whose [message] is a string; [statusCode]
    and [ratelimitRemaining] are there when the upstream library sets
    them. *)
Record Error := {
  statusCode : option Z;
  message : string;
  ratelimitRemaining : option Z
}.

(** What a JavaScript call gives: a value, or a thrown error. *)
Inductive outcome (A : Type) :=
| Returns (a : A)
| Throws (e : Error).
Arguments Returns {A} a.
Arguments Throws {A} e.

(** ** src/trendAnalyzer.js *)

Module TrendAnalyzer.

(** [this.stopWords], as the constructor lists it; a [Set] holds each
    word once, and membership in the list is membership in the set. *)
Definition stopWords : list string :=
  [ "the"; "be"; "to"; "of"; "and"; "a"; "in"; "that"; "have"; "i";
    "it"; "for"; "not"; "on"; "with"; "he"; "as"; "you"; "do"; "at";
    "this"; "but"; "his"; "by"; "from"; "they"; "we"; "say"; "her"; "she";
    "or"; "an"; "will"; "my"; "one"; "all"; "would"; "there"; "their";
    "what"; "so"; "up"; "out"; "if"; "about"; "who"; "get"; "which"; "go";
    "me"; "when"; "make"; "can"; "like"; "time"; "no"; "just"; "him"; "know";
    "take"; "people"; "into"; "year"; "your"; "good"; "some"; "could"; "them";
    "see"; "other"; "than"; "then"; "now"; "look"; "only"; "come"; "its"; "over";
    "think"; "also"; "back"; "after"; "use"; "two"; "how"; "our"; "work";
    "first"; "well"; "way"; "even"; "new"; "want"; "because"; "any"; "these";
    "give"; "day"; "most"; "us"; "is"; "was"; "are"; "been"; "has"; "had";
    "were"; "said"; "did"; "having"; "may"; "should"; "am"; "im"; "dont";
    "doesnt"; "didnt"; "isnt"; "arent"; "wasnt"; "werent"; "wont"; "wouldnt";
    "cant"; "couldnt"; "shouldnt"; "ive"; "youve"; "theyve"; "weve"; "youre";
    "theyre"; "were"; "hes"; "shes"; "its"; "thats"; "whats"; "heres"; "theres" ].

Definition is_stop_word (word : string) : bool :=
  existsb (String.eqb word) stopWords.

(** The predicate of the [filter] in [extractKeywords]. *)
Definition keep_word (word : string) : bool :=
  (3 <? String.length word)%nat
  && negb (is_stop_word word)
  && negb (Text.is_numeric word).

(** The array [words] of [extractKeywords]. *)
Definition words_of (text : string) : list string :=
  List.filter keep_word
    (Text.split_whitespace (Text.replace_nonword (Text.toLowerCase text))).

(** [frequency[word] = (frequency[word] || 0) + 1] *)
Definition count_word (frequency : Js.object) (word : string) : Js.object :=
  Js.set frequency word
    (Js.add (Js.or (Js.get frequency word) (Js.JNum 0)) (Js.JNum 1)).

Definition extractKeywords (text : string) : Js.object :=
  fold_left count_word (words_of text) [].

(** [merged[word] = (merged[word] || 0) + count] *)
Definition merge_entry (merged : Js.object) (entry : string * Js.value) : Js.object :=
  let '(word, count) := entry in
  Js.set merged word (Js.add (Js.or (Js.get merged word) (Js.JNum 0)) count).

Definition mergeFrequencies (frequencyMaps : list Js.object) : Js.object :=
  fold_left (fun merged map => fold_left merge_entry map merged) frequencyMaps [].

Record TrendEntry := { keyword : string; count : Js.value }.

(** [entries.sort((a, b) => b[1] - a[1])]: [Array.prototype.sort] is
    stable, so among the orders that the comparator allows it gives the
    one that keeps the entries of equal count in their former order; an
    insertion sort that moves an entry only past strictly larger counts
    computes it. When a count is not a number the comparator is NaN and
    ECMAScript leaves the order to the engine; [analyzeTrendingKeywords]
    and [analyzeCommentTrends] never sort such an entry, as their filter
    keeps numbers only. *)
Fixpoint insert_entry (e : string * Js.value) (l : list (string * Js.value))
  : list (string * Js.value) :=
  match l with
  | [] => [e]
  | e' :: l' =>
      if Js.gt (snd e') (snd e) then e' :: insert_entry e l' else e :: e' :: l'
  end.

Fixpoint sort_entries (l : list (string * Js.value)) : list (string * Js.value) :=
  match l with
  | [] => []
  | e :: l' => insert_entry e (sort_entries l')
  end.

Definition to_entry (e : string * Js.value) : TrendEntry :=
  {| keyword := fst e; count := snd e |}.

(** [limit] is a count of entries: 20 by default, 30 from the callers. *)
Definition getTopKeywords (frequencies : Js.object) (limit : nat) : list TrendEntry :=
  map to_entry (firstn limit (sort_entries frequencies)).

(** The filter and the [reduce] that both analyses apply to [merged]. *)
Definition filter_frequent (merged : Js.object) (minFrequency : Z) : Js.object :=
  fold_left (fun acc '(word, count) => Js.set acc word count)
    (List.filter (fun '(_, count) => Js.ge count (Js.JNum minFrequency)) merged)
    [].

(** [post.text ? this.extractKeywords(post.text) : {}] *)
Definition post_frequencies (post : Post) : Js.object :=
  let titleFreq := extractKeywords (title post) in
  let textFreq :=
    if negb (String.eqb (text post) "") then extractKeywords (text post) else [] in
  mergeFrequencies [titleFreq; textFreq].

Definition analyzeTrendingKeywords (posts : list Post) (minFrequency : Z)
  : list TrendEntry :=
  let allFrequencies := map post_frequencies posts in
  let merged := mergeFrequencies allFrequencies in
  getTopKeywords (filter_frequent merged minFrequency) 30.

Definition analyzeCommentTrends (comments : list Comment) (minFrequency : Z)
  : list TrendEntry :=
  let allFrequencies := map (fun comment => extractKeywords (body comment)) comments in
  let merged := mergeFrequencies allFrequencies in
  getTopKeywords (filter_frequent merged minFrequency) 30.

Record Summary := {
  postCount : nat;
  topKeywords : list TrendEntry;
  avgScore : Q
}.

(** The error of calling [push] on an inherited property, which has
    none. *)
Definition push_is_not_a_function : Error :=
  {| statusCode := None;
     message := "bySubreddit[post.subreddit].push is not a function";
     ratelimitRemaining := None |}.

(** One round of the first [forEach] of [getTrendsBySubreddit]. The test
    [!bySubreddit[post.subreddit]] reads through the prototype chain: a
    name that [{}] inherits is found, no array is created, and the call
    of [push] on the inherited value throws. The groups are kept in a
    finite map: the order of the properties is not recorded. *)
Definition group_post (bySubreddit : gmap string (list Post)) (post : Post)
  : outcome (gmap string (list Post)) :=
  match bySubreddit !! subreddit post with
  | Some subPosts => Returns (<[subreddit post := subPosts ++ [post]]> bySubreddit)
  | None =>
      if String.eqb (subreddit post) "__proto__"
         || Js.is_prototype_method (subreddit post)
      then Throws push_is_not_a_function
      else Returns (<[subreddit post := [post]]> bySubreddit)
  end.

Fixpoint group_posts (bySubreddit : gmap string (list Post)) (posts : list Post)
  : outcome (gmap string (list Post)) :=
  match posts with
  | [] => Returns bySubreddit
  | post :: posts' =>
      match group_post bySubreddit post with
      | Returns bySubreddit' => group_posts bySubreddit' posts'
      | Throws e => Throws e
      end
  end.

Definition sum_scores (subPosts : list Post) : Z :=
  fold_left (fun sum p => sum + score p) subPosts 0.

(** The divisor of [avgScore]. *)
Definition divisor (subPosts : list Post) : Z := Z.of_nat (length subPosts).

Definition summarize (subPosts : list Post) : Summary :=
  let keywords := analyzeTrendingKeywords subPosts 2 in
  {| postCount := length subPosts;
     topKeywords := firstn 10 keywords;
     avgScore := (inject_Z (sum_scores subPosts) / inject_Z (divisor subPosts))%Q |}.

Definition getTrendsBySubreddit (posts : list Post)
  : outcome (gmap string Summary) :=
  match group_posts ∅ posts with
  | Returns bySubreddit => Returns (summarize <$> bySubreddit)
  | Throws e => Throws e
  end.

(** [now] is what [Date.now()] returns, in milliseconds. *)
Definition ageInHours (now : Z) (post : Post) : R :=
  ((IZR now / 1000 - IZR (created_utc post)) / 3600)%R.

Definition calculateTrendingScore (now : Z) (post : Post) : R :=
  let ageFactor := Rmax 1 (ageInHours now post) in
  let engagementScore := IZR (score post + num_comments post * 2) in
  (engagementScore / Rpower ageFactor 1.5)%R.

(** [{ ...post, trendingScore }] *)
Record ScoredPost := { scored : Post; trendingScore : R }.

(** The stable sort by [b.trendingScore - a.trendingScore]. *)
Fixpoint insert_scored (p : ScoredPost) (l : list ScoredPost) : list ScoredPost :=
  match l with
  | [] => [p]
  | p' :: l' =>
      if Rlt_dec (trendingScore p) (trendingScore p')
      then p' :: insert_scored p l'
      else p :: p' :: l'
  end.

Fixpoint sort_scored (l : list ScoredPost) : list ScoredPost :=
  match l with
  | [] => []
  | p :: l' => insert_scored p (sort_scored l')
  end.

Definition getTopTrendingPosts (now : Z) (posts : list Post) (limit : nat)
  : list ScoredPost :=
  firstn limit
    (sort_scored
       (map (fun post => {| scored := post;
                            trendingScore := calculateTrendingScore now post |})
            posts)).

(** [Date.now() / 1000 - (hoursThreshold * 3600)] *)
Definition cutoffTime (now hoursThreshold : Z) : Q :=
  (inject_Z now / 1000 - inject_Z (hoursThreshold * 3600))%Q.

(** [post.created_utc > cutoffTime] *)
Definition is_recent (now hoursThreshold : Z) (post : Post) : bool :=
  negb (Qle_bool (inject_Z (created_utc post)) (cutoffTime now hoursThreshold)).

Definition getEmergingTopics (now : Z) (posts : list Post) (hoursThreshold : Z)
  : list TrendEntry :=
  let recentPosts := List.filter (is_recent now hoursThreshold) posts in
  match recentPosts with
  | [] => []
  | _ => firstn 15 (analyzeTrendingKeywords recentPosts 2)
  end.

End TrendAnalyzer.

(** ** src/redditClient.js *)

Module RedditClient.

(** The fields of the client that the calls change, and the record of
    the waits: [slept] lists, oldest first, the argument of every
    [this.sleep(ms)] that was awaited. *)
Record Client := {
  requestCount : Z;
  rateLimitRemaining : option Z;
  slept : list Q
}.

(** An [async] method: from the state of the client to what the awaited
    promise gives and the state it leaves. *)
Definition Async (A : Type) : Type := Client -> outcome A * Client.

Definition ret {A} (a : A) : Async A := fun c => (Returns a, c).

Definition throw {A} (e : Error) : Async A := fun c => (Throws e, c).

Definition bind {A B} (m : Async A) (f : A -> Async B) : Async B :=
  fun c =>
    match m c with
    | (Returns a, c') => f a c'
    | (Throws e, c') => (Throws e, c')
    end.

(** [try { body } catch (error) { handler }] *)
Definition try_catch {A} (body : Async A) (handler : Error -> Async A) : Async A :=
  fun c =>
    match body c with
    | (Returns a, c') => (Returns a, c')
    | (Throws e, c') => handler e c'
    end.

Notation "x <- m ;; k" := (bind m (fun x => k))
  (at level 100, m at next level, right associativity).

Definition sleep (ms : Q) : Async unit :=
  fun c =>
    (Returns tt,
     {| requestCount := requestCount c;
        rateLimitRemaining := rateLimitRemaining c;
        slept := slept c ++ [ms] |}).

(** [error.statusCode === 429 || error.message?.includes('rate limit')] *)
Definition is_rate_limit (error : Error) : bool :=
  match statusCode error with
  | Some 429 => true
  | _ => Text.includes "rate limit" (message error)
  end.

(** [error.statusCode >= 500] *)
Definition is_server_error (error : Error) : bool :=
  match statusCode error with
  | Some code => 500 <=? code
  | None => false
  end.

(** [error.ratelimitRemaining ? (error.ratelimitRemaining * 1000) + 1000 : delay] *)
Definition waitTime (error : Error) (delay : Q) : Q :=
  match ratelimitRemaining error with
  | Some remaining =>
      if remaining =? 0 then delay else inject_Z (remaining * 1000 + 1000)
  | None => delay
  end.

Definition rate_limit_exceeded : Error :=
  {| statusCode := None;
     message := "Rate limit exceeded. Max retries reached. Please try again later.";
     ratelimitRemaining := None |}.

(** [retries] counts the retries that remain: the test [retries > 0]
    is the test for a successor. *)
Fixpoint retryWithBackoff {A} (fn : Async A) (retries : nat) (delay : Q)
  : Async A :=
  try_catch fn (fun error =>
    if is_rate_limit error then
      match retries with
      | S retries' =>
          _ <- sleep (waitTime error delay) ;;
          retryWithBackoff fn retries' (delay * 2)%Q
      | O => throw rate_limit_exceeded
      end
    else
      match retries with
      | S retries' =>
          if is_server_error error then
            _ <- sleep delay ;;
            retryWithBackoff fn retries' (delay * 1.5)%Q
          else throw error
      | O => throw error
      end).

(** [this.rateLimitRemaining && this.rateLimitRemaining < 10] *)
Definition approaching_limit (c : Client) : bool :=
  match rateLimitRemaining c with
  | Some remaining => negb (remaining =? 0) && (remaining <? 10)
  | None => false
  end.

Definition enforceRateLimit : Async unit :=
  fun c =>
    let c' := {| requestCount := requestCount c + 1;
                 rateLimitRemaining := rateLimitRemaining c;
                 slept := slept c |} in
    if approaching_limit c' then sleep 5000 c' else (Returns tt, c').

(** A submission as the upstream library hands it over. *)
Record Submission := {
  display_name : string;
  sub_title : string;
  selftext : string;
  author_name : string;
  sub_score : Z;
  sub_upvote_ratio : Q;
  sub_num_comments : Z;
  sub_created_utc : Z;
  sub_url : string;
  sub_permalink : string;
  sub_id : string
}.

(** The object literal that [fetchHotPosts] pushes. *)
Definition to_post (post : Submission) : Post :=
  {| subreddit := display_name post;
     title := sub_title post;
     text := if String.eqb (selftext post) "" then "" else selftext post;
     author := author_name post;
     score := sub_score post;
     upvote_ratio := sub_upvote_ratio post;
     num_comments := sub_num_comments post;
     created_utc := sub_created_utc post;
     url := sub_url post;
     permalink := "https://reddit.com" +:+ sub_permalink post;
     id := sub_id post |}.

(** [subreddits.indexOf(subreddit)], for a name of the list. *)
Fixpoint indexOf (subreddits : list string) (subreddit : string) : Z :=
  match subreddits with
  | [] => -1
  | s :: subreddits' =>
      if String.eqb s subreddit then 0
      else
        let i := indexOf subreddits' subreddit in
        if i <? 0 then -1 else i + 1
  end.

Section Fetch.

(** The upstream API: what [this.reddit.getSubreddit(subreddit)
    .getHot({ limit })] gives at the request numbered [n], the value of
    [this.requestCount] when the call is made. Every request has a
    number of its own, so any sequence of answers is such a function. *)
Variable getHot : string -> Z -> Z -> outcome (list Submission).

(** [this.maxRetries] *)
Variable maxRetries : nat.

(** The function that [fetchHotPosts] hands to [retryWithBackoff]. *)
Definition request (subreddit : string) (limit : Z) : Async (list Submission) :=
  _ <- enforceRateLimit ;;
  (fun c => (getHot subreddit limit (requestCount c), c)).

(** The body of the [try] for one subreddit; it gives the new
    [allPosts]. *)
Definition fetch_subreddit (subreddits : list string) (limit : Z)
  (allPosts : list Post) (subreddit : string) : Async (list Post) :=
  posts <- retryWithBackoff (request subreddit limit) maxRetries 2000 ;;
  let allPosts' := allPosts ++ map to_post posts in
  _ <- (if indexOf subreddits subreddit <? Z.of_nat (length subreddits) - 1
        then sleep 1000 else ret tt) ;;
  ret allPosts'.

(** The [for] loop over the subreddits that are left; the [catch]
    only writes to the console. *)
Fixpoint fetch_loop (subreddits rest : list string) (limit : Z)
  (allPosts : list Post) : Async (list Post) :=
  match rest with
  | [] => ret allPosts
  | subreddit :: rest' =>
      allPosts' <- try_catch (fetch_subreddit subreddits limit allPosts subreddit)
                             (fun error => ret allPosts) ;;
      fetch_loop subreddits rest' limit allPosts'
  end.

Definition fetchHotPosts (subreddits : list string) (limit : Z)
  : Async (list Post) :=
  fetch_loop subreddits subreddits limit [].

End Fetch.

(** A comment as the upstream library hands it over. *)
Record Reply := {
  reply_author : string;
  reply_body : string;
  reply_score : Z;
  reply_created_utc : Z
}.

(** A fetched submission with its comments: [thread_comments] is
    [submission.comments], [expandReplies limit] is what awaiting
    [submission.expandReplies({ limit, depth: 1 })] gives; its value is
    not used, only its failure matters. *)
Record Thread := {
  thread_comments : list Reply;
  expandReplies : Z -> outcome unit
}.

(** [array.slice(0, end)]: a negative [end] counts from the end of the
    array. *)
Definition slice_to {T} (l : list T) (end_ : Z) : list T :=
  let len := Z.of_nat (length l) in
  let stop := if end_ <? 0 then Z.max (len + end_) 0 else Z.min end_ len in
  firstn (Z.to_nat stop) l.

(** [comment.body && comment.body !== '[deleted]' && comment.body !== '[removed]'] *)
Definition is_visible (comment : Reply) : bool :=
  negb (String.eqb (reply_body comment) "")
  && negb (String.eqb (reply_body comment) "[deleted]")
  && negb (String.eqb (reply_body comment) "[removed]").

Definition to_comment (comment : Reply) : Comment :=
  {| comment_author := reply_author comment;
     body := reply_body comment;
     comment_score := reply_score comment;
     comment_created_utc := reply_created_utc comment |}.

(** A comment with the fields that [fetchPostsWithComments] adds. *)
Record PostComment := {
  comment : Comment;
  post_id : string;
  post_title : string;
  comment_subreddit : string
}.

Definition annotate (post : Post) (c : Comment) : PostComment :=
  {| comment := c;
     post_id := id post;
     post_title := title post;
     comment_subreddit := subreddit post |}.

Section Details.

(** The upstream API, as in the section above, and
    [this.reddit.getSubmission(postId)] at the request numbered [n]. *)
Variable getHot : string -> Z -> Z -> outcome (list Submission).
Variable getSubmission : string -> Z -> outcome Thread.

(** [this.maxRetries] and [parseInt(process.env.MAX_POSTS_FOR_COMMENTS || '20')] *)
Variable maxRetries : nat.
Variable maxPostsForComments : Z.

(** The function that [fetchComments] hands to [retryWithBackoff]. *)
Definition detail_request (postId : string) : Async Thread :=
  _ <- enforceRateLimit ;;
  (fun c => (getSubmission postId (requestCount c), c)).

Definition fetchComments (postId : string) (limit : Z) : Async (list Comment) :=
  try_catch
    (submission <- retryWithBackoff (detail_request postId) maxRetries 2000 ;;
     _ <- (fun c => (expandReplies submission limit, c)) ;;
     let topComments := slice_to (thread_comments submission) limit in
     ret (map to_comment (List.filter is_visible topComments)))
    (fun error => ret []).

(** The [for] loop of [fetchPostsWithComments] from the index [i] on;
    [rest] holds the posts from [posts[i]] on. *)
Fixpoint comment_loop (postsToProcess i : Z) (rest : list Post) (commentLimit : Z)
  (allComments : list PostComment) : Async (list PostComment) :=
  match rest with
  | [] => ret allComments
  | post :: rest' =>
      if i <? postsToProcess then
        allComments' <-
          try_catch
            (comments <- fetchComments (id post) commentLimit ;;
             let allComments' := allComments ++ map (annotate post) comments in
             _ <- (if i <? postsToProcess - 1 then sleep 500 else ret tt) ;;
             ret allComments')
            (fun error => ret allComments) ;;
        comment_loop postsToProcess (i + 1) rest' commentLimit allComments'
      else ret allComments
  end.

Definition fetchPostsWithComments (subreddits : list string)
  (postLimit commentLimit : Z) : Async (list Post * list PostComment) :=
  posts <- fetchHotPosts getHot maxRetries subreddits postLimit ;;
  match posts with
  | [] => ret (posts, [])
  | _ =>
      let postsToProcess := Z.min (Z.of_nat (length posts)) maxPostsForComments in
      allComments <- comment_loop postsToProcess 0 posts commentLimit [] ;;
      ret (posts, allComments)
  end.

End Details.

End RedditClient.

(** ** The sentiment analyzer *)

Module SentimentAnalyzer.

(** What the [sentiment] library returns for a text: the sum of the
    scores of its words, that sum divided by the number of tokens, the
    tokens, and the words that scored above and below zero. *)
Record LibraryResult := {
  lib_score : Z;
  lib_comparative : Q;
  lib_tokens : list string;
  lib_positive : list string;
  lib_negative : list string
}.

(** The object that [analyze] returns. *)
Record Sentiment := {
  sentiment_score : Z;
  comparative : Q;
  sentiment : string;
  positive : list string;
  negative : list string;
  tokens : nat
}.

(** [score > bound] for an integer bound. *)
Definition above (score : Q) (bound : Z) : bool :=
  negb (Qle_bool score (inject_Z bound)).

Definition categorizeSentiment (score : Q) : string :=
  if above score 5 then "Very Positive"
  else if above score 2 then "Positive"
  else if above score (-2) then "Neutral"
  else if above score (-5) then "Negative"
  else "Very Negative".

Section Library.

(** [this.sentiment.analyze] *)
Variable library : string -> LibraryResult.

Definition analyze (text : string) : Sentiment :=
  let result := library text in
  {| sentiment_score := lib_score result;
     comparative := lib_comparative result;
     sentiment := categorizeSentiment (inject_Z (lib_score result));
     positive := lib_positive result;
     negative := lib_negative result;
     tokens := length (lib_tokens result) |}.

(** [{ ...comment, sentiment: this.analyze(comment.body) }] *)
Definition analyzeComments (comments : list Comment) : list (Comment * Sentiment) :=
  map (fun comment => (comment, analyze (body comment))) comments.

End Library.

(** The [sentiment] field of an item, as [getStatistics] reads it: the
    pair [combined] of a post, with its score and its label, or the score
    and the label of a comment. *)
Inductive item_sentiment :=
| Combined (score : Q) (label : string)
| Plain (score : Q) (label : string).

(** [item.sentiment?.combined?.sentiment || item.sentiment?.sentiment]:
    [None] is [undefined]. A post has no label beside [combined], so an
    empty label there falls through to [undefined]. *)
Definition label_of (item : option item_sentiment) : option string :=
  match item with
  | Some (Combined _ label) => if String.eqb label "" then None else Some label
  | Some (Plain _ label) => Some label
  | None => None
  end.

(** [item.sentiment?.combined?.score || item.sentiment?.score || 0]: a
    score 0 is falsy and gives 0 at the end of the chain. *)
Definition score_of (item : option item_sentiment) : Q :=
  match item with
  | Some (Combined score _) => if Qeq_bool score 0 then 0%Q else score
  | Some (Plain score _) => if Qeq_bool score 0 then 0%Q else score
  | None => 0%Q
  end.

(** The object [stats]; [totalScore] is absent from the object that an
    empty array gives. *)
Record Statistics := {
  total : Z;
  veryPositive : Z;
  stat_positive : Z;
  neutral : Z;
  stat_negative : Z;
  veryNegative : Z;
  totalScore : option Q;
  averageScore : Q
}.

(** One round of the [forEach] of [getStatistics]. *)
Definition tally (stats : Statistics) (item : option item_sentiment) : Statistics :=
  let bump (name : string) (n : Z) : Z :=
    match label_of item with
    | Some label => if String.eqb label name then n + 1 else n
    | None => n
    end in
  {| total := total stats;
     veryPositive := bump "Very Positive" (veryPositive stats);
     stat_positive := bump "Positive" (stat_positive stats);
     neutral := bump "Neutral" (neutral stats);
     stat_negative := bump "Negative" (stat_negative stats);
     veryNegative := bump "Very Negative" (veryNegative stats);
     totalScore :=
       match totalScore stats with
       | Some sum => Some (sum + score_of item)%Q
       | None => None
       end;
     averageScore := averageScore stats |}.

Definition getStatistics (items : list (option item_sentiment)) : Statistics :=
  match items with
  | [] =>
      {| total := 0; veryPositive := 0; stat_positive := 0; neutral := 0;
         stat_negative := 0; veryNegative := 0; totalScore := None;
         averageScore := 0 |}
  | _ =>
      let stats :=
        fold_left tally items
          {| total := Z.of_nat (length items); veryPositive := 0;
             stat_positive := 0; neutral := 0; stat_negative := 0;
             veryNegative := 0; totalScore := Some 0%Q; averageScore := 0 |} in
      {| total := total stats;
         veryPositive := veryPositive stats;
         stat_positive := stat_positive stats;
         neutral := neutral stats;
         stat_negative := stat_negative stats;
         veryNegative := veryNegative stats;
         totalScore := totalScore stats;
         averageScore :=
           match totalScore stats with
           | Some sum => (sum / inject_Z (total stats))%Q
           | None => 0%Q
           end |}
  end.

(** An analyzed comment as an item of [getStatistics]. *)
Definition comment_item (analyzed : Comment * Sentiment) : option item_sentiment :=
  Some (Plain (inject_Z (sentiment_score (snd analyzed))) (sentiment (snd analyzed))).

End SentimentAnalyzer.

(** * The vocabulary of the properties *)

(** The characters that a keyword can hold: the small letters of ASCII,
    the digits and the underscore. *)
Definition is_key_char (c : ascii) : bool :=
  Text.is_ascii_lower c || Text.is_digit c || (Text.code c =? 95)%N.

(** A name that a [{}] does not inherit: reading it gives the own
    property or [undefined], assigning to it creates or changes the own
    property. *)
Definition plain (k : string) : Prop :=
  k <> "__proto__" /\ Js.is_prototype_method k = false.

(** A counter: a number that is at least 1. *)
Definition is_count (v : Js.value) : Prop := exists n, v = Js.JNum n /\ 1 <= n.

(** The plain names of an object are bound to counters. *)
Definition counts (o : Js.object) : Prop :=
  forall k v, plain k -> Js.own o k = Some v -> is_count v.

(** The entries of an object bind plain names to counters. *)
Definition entries_count (o : Js.object) : Prop :=
  forall k v, In (k, v) o -> plain k -> is_count v.

(** What every frequency map of the program satisfies. *)
Definition frequency_map (o : Js.object) : Prop :=
  List.NoDup (Js.keys o) /\ counts o.

Definition merge_into (merged : Js.object) (frequencyMaps : list Js.object) :=
  fold_left (fun merged map => fold_left TrendAnalyzer.merge_entry map merged) frequencyMaps merged.

(** The words of a post: those of its title, then those of its text. *)
Definition post_words (post : Post) : list string :=
  TrendAnalyzer.words_of (title post) ++ TrendAnalyzer.words_of (text post).

Definition all_words (posts : list Post) : list string :=
  flat_map post_words posts.

(** A post with the given subreddit, title, text, score, number of
    comments and time of creation, for the examples. *)
Definition example_post (name heading content : string) (points comments created : Z)
  : Post :=
  {| subreddit := name; title := heading; text := content; author := "author";
     score := points; upvote_ratio := 1; num_comments := comments;
     created_utc := created; url := "https://example.com";
     permalink := "https://reddit.com/r/example"; id := "abc123" |}.

(** A post whose title holds 31 different keywords. *)
Definition crowded_post : Post :=
  example_post "technology"
    "word01 word02 word03 word04 word05 word06 word07 word08 word09 word10 word11 word12 word13 word14 word15 word16 word17 word18 word19 word20 word21 word22 word23 word24 word25 word26 word27 word28 word29 word30 word31"
    "" 1 0 0.

(** The posts of a list that belong to a subreddit, in their order. *)
Definition posts_of (name : string) (posts : list Post) : list Post :=
  List.filter (fun p => String.eqb (subreddit p) name) posts.

(** [bySubreddit] groups the posts [done]: each subreddit with a post is
    bound to its posts, no other name is bound. *)
Definition grouped (done : list Post) (bySubreddit : gmap string (list Post)) : Prop :=
  forall name,
    bySubreddit !! name =
    match posts_of name done with
    | [] => None
    | subPosts => Some subPosts
    end.

(** The operations of the analyzer with their explicit inputs, and what
    they return. *)
Inductive operation :=
| ExtractKeywords (text : string)
| MergeFrequencies (frequencyMaps : list Js.object)
| GetTopKeywords (frequencies : Js.object) (limit : nat)
| AnalyzeTrendingKeywords (posts : list Post) (minFrequency : Z)
| AnalyzeCommentTrends (comments : list Comment) (minFrequency : Z)
| GetTrendsBySubreddit (posts : list Post)
| CalculateTrendingScore (post : Post)
| GetTopTrendingPosts (posts : list Post) (limit : nat)
| GetEmergingTopics (posts : list Post) (hoursThreshold : Z).

Inductive answer :=
| Frequencies (o : Js.object)
| Entries (l : list TrendAnalyzer.TrendEntry)
| Trends (t : outcome (gmap string TrendAnalyzer.Summary))
| Score (r : R)
| ScoredPosts (l : list TrendAnalyzer.ScoredPost).

(** A call of an operation when [Date.now()] reads [now]. *)
Definition perform (now : Z) (op : operation) : answer :=
  match op with
  | ExtractKeywords text => Frequencies (TrendAnalyzer.extractKeywords text)
  | MergeFrequencies maps => Frequencies (TrendAnalyzer.mergeFrequencies maps)
  | GetTopKeywords frequencies limit =>
      Entries (TrendAnalyzer.getTopKeywords frequencies limit)
  | AnalyzeTrendingKeywords posts minFrequency =>
      Entries (TrendAnalyzer.analyzeTrendingKeywords posts minFrequency)
  | AnalyzeCommentTrends comments minFrequency =>
      Entries (TrendAnalyzer.analyzeCommentTrends comments minFrequency)
  | GetTrendsBySubreddit posts => Trends (TrendAnalyzer.getTrendsBySubreddit posts)
  | CalculateTrendingScore post => Score (TrendAnalyzer.calculateTrendingScore now post)
  | GetTopTrendingPosts posts limit =>
      ScoredPosts (TrendAnalyzer.getTopTrendingPosts now posts limit)
  | GetEmergingTopics posts hoursThreshold =>
      Entries (TrendAnalyzer.getEmergingTopics now posts hoursThreshold)
  end.

(** The operations whose source calls [Date.now()], themselves or through
    [calculateTrendingScore]. *)
Definition reads_clock (op : operation) : bool :=
  match op with
  | CalculateTrendingScore _ | GetTopTrendingPosts _ _ | GetEmergingTopics _ _ => true
  | _ => false
  end.

(** A client that has made no request yet. *)
Definition fresh_client : RedditClient.Client :=
  {| RedditClient.requestCount := 0;
     RedditClient.rateLimitRemaining := None;
     RedditClient.slept := [] |}.

(** The rejection of a request over the limit, with the hint that the
    upstream library attaches to it. *)
Definition too_many_requests (hint : option Z) : Error :=
  {| statusCode := Some 429;
     message := "429 - Too Many Requests";
     ratelimitRemaining := hint |}.

Definition not_found : Error :=
  {| statusCode := Some 404; message := "404 - Not Found"; ratelimitRemaining := None |}.

(** An upstream that rejects the first two requests with the hint 1 and
    answers the later ones with an empty listing. *)
Definition limited_twice (subreddit : string) (limit n : Z)
  : outcome (list RedditClient.Submission) :=
  if n <=? 2 then Throws (too_many_requests (Some 1)) else Returns [].

(** An upstream that rejects every request. *)
Definition always_limited (subreddit : string) (limit n : Z)
  : outcome (list RedditClient.Submission) :=
  Throws (too_many_requests (Some 1)).

(** The wait in the words of the specification:
    max(signaledResetSeconds * 1000 + 1000, currentBackoffDelay). *)
Definition waitTime_specified (signaledResetSeconds : Z) (currentBackoffDelay : Q) : Q :=
  Qmax (inject_Z (signaledResetSeconds * 1000 + 1000)) currentBackoffDelay.

(** A submission of a subreddit, for the examples. *)
Definition example_submission (name heading : string) : RedditClient.Submission :=
  {| RedditClient.display_name := name;
     RedditClient.sub_title := heading;
     RedditClient.selftext := "";
     RedditClient.author_name := "author";
     RedditClient.sub_score := 10;
     RedditClient.sub_upvote_ratio := 1;
     RedditClient.sub_num_comments := 2;
     RedditClient.sub_created_utc := 1700000000;
     RedditClient.sub_url := "https://example.com";
     RedditClient.sub_permalink := "/r/example/comments/abc123";
     RedditClient.sub_id := "abc123" |}.

(** An upstream that answers for every subreddit but [gaming], which it
    does not find. *)
Definition gaming_not_found (subreddit : string) (limit n : Z)
  : outcome (list RedditClient.Submission) :=
  if String.eqb subreddit "gaming" then Throws not_found
  else Returns [example_submission subreddit "A post"].

(** The values that the frequency maps of the program hold: numbers, and
    strings that contain the text of an inherited property. *)
Definition program_value (v : Js.value) : Prop :=
  match v with
  | Js.JNum _ => True
  | Js.JStr s => Js.native_text s = true
  | _ => False
  end.

Definition program_object (o : Js.object) : Prop :=
  forall k v, In (k, v) o -> program_value v.

(** The count that an object binds to a name: 0 when the name is not an
    own property or is not bound to a number. *)
Definition count_in (o : Js.object) (k : string) : Z :=
  match Js.own o k with
  | Some (Js.JNum n) => n
  | _ => 0
  end.

(** The object binds [k] to the count [n]: to nothing when [n] is 0. *)
Definition binds (o : Js.object) (k : string) (n : Z) : Prop :=
  (n = 0 /\ Js.own o k = None) \/ (1 <= n /\ Js.own o k = Some (Js.JNum n)).

(** The sum of a list of integers. *)
Definition sum_Z (l : list Z) : Z := fold_right Z.add 0 l.

(** The number that a value stands for in a ranking: 0 for a value that
    is no number. *)
Definition number_of (v : Js.value) : Z :=
  match v with
  | Js.JNum n => n
  | _ => 0
  end.

(** Every property of the object is bound to a number. *)
Definition numeric (o : Js.object) : Prop :=
  forall k v, In (k, v) o -> exists n, v = Js.JNum n.

(** A ranking in which no entry has a larger count than an entry before
    it. *)
Definition descending (ranking : list TrendAnalyzer.TrendEntry) : Prop :=
  StronglySorted
    (fun a b => number_of (TrendAnalyzer.count b) <= number_of (TrendAnalyzer.count a))
    ranking.

(** The entries of a ranking with the count [n], in their order. *)
Definition with_count (n : Z) (ranking : list TrendAnalyzer.TrendEntry)
  : list TrendAnalyzer.TrendEntry :=
  List.filter (fun e => number_of (TrendAnalyzer.count e) =? n) ranking.

(** What both analyses return for the threshold [minFrequency]: at most
    30 entries, in descending order of count, with different keywords,
    each count a number that is at least the threshold. *)
Definition frequent_ranking (minFrequency : Z)
  (ranking : list TrendAnalyzer.TrendEntry) : Prop :=
  (length ranking <= 30)%nat
  /\ descending ranking
  /\ List.NoDup (map TrendAnalyzer.keyword ranking)
  /\ List.Forall
       (fun e => exists n, TrendAnalyzer.count e = Js.JNum n /\ minFrequency <= n)
       ranking.

(** A post is inside the window of [hoursThreshold] hours that ends at
    the clock reading [now], in whole milliseconds. *)
Definition in_window (now hoursThreshold : Z) (post : Post) : bool :=
  now - hoursThreshold * 3600000 <? created_utc post * 1000.

(** The engagement of a post: its score plus twice its comments. *)
Definition engagement (post : Post) : Z := score post + num_comments post * 2.

(** A list of scored posts in which no post has a larger trending score
    than a post before it. *)
Definition by_falling_score (l : list TrendAnalyzer.ScoredPost) : Prop :=
  StronglySorted
    (fun a b => (TrendAnalyzer.trendingScore b <= TrendAnalyzer.trendingScore a)%R) l.

(** A post with its trending score at the clock reading [now]. *)
Definition with_score (now : Z) (post : Post) : TrendAnalyzer.ScoredPost :=
  {| TrendAnalyzer.scored := post;
     TrendAnalyzer.trendingScore := TrendAnalyzer.calculateTrendingScore now post |}.

(** An error that the retry layer retries: a rate-limit signal or a
    server error. *)
Definition retryable (error : Error) : bool :=
  RedditClient.is_rate_limit error || RedditClient.is_server_error error.

(** The waits of [n] retries after server errors, from the delay [delay]
    on: each is 1.5 times the one before. *)
Fixpoint backoff_delays (n : nat) (delay : Q) : list Q :=
  match n with
  | O => []
  | S n' => delay :: backoff_delays n' (delay * 1.5)%Q
  end.

(** The shape of the functions that the client hands to the retry layer:
    [enforceRateLimit], then the upstream call with the number of the
    request. *)
Definition numbered {A} (upstream : Z -> outcome A) : RedditClient.Async A :=
  RedditClient.bind RedditClient.enforceRateLimit
    (fun _ c => (upstream (RedditClient.requestCount c), c)).

(** From [c] to [c'] the client has made between [lo] and [hi] requests
    and has left [rateLimitRemaining] as it was. *)
Definition advances (lo hi : Z) (c c' : RedditClient.Client) : Prop :=
  RedditClient.requestCount c + lo <= RedditClient.requestCount c'
  /\ RedditClient.requestCount c' <= RedditClient.requestCount c + hi
  /\ RedditClient.rateLimitRemaining c' = RedditClient.rateLimitRemaining c.

(** A server error of the upstream. *)
Definition service_unavailable : Error :=
  {| statusCode := Some 503;
     message := "503 - Service Unavailable";
     ratelimitRemaining := None |}.

(** An upstream that fails the first two requests, once with a server
    error and once with a rate-limit signal, and then answers. *)
Definition fails_twice (subreddit : string) (limit n : Z)
  : outcome (list RedditClient.Submission) :=
  if n =? 1 then Throws service_unavailable
  else if n =? 2 then Throws (too_many_requests None)
  else Returns [example_submission subreddit "A post"].

(** An upstream whose every answer is a server error. *)
Definition always_unavailable (subreddit : string) (limit n : Z)
  : outcome (list RedditClient.Submission) :=
  Throws service_unavailable.

(** The posts that a subreddit contributes when the upstream gives the
    same answer to every request for it: a listing, or an error. *)
Definition contribution (answer : string -> option (list RedditClient.Submission))
  (subreddit : string) : list Post :=
  match answer subreddit with
  | Some posts => map RedditClient.to_post posts
  | None => []
  end.

(** A comment that is shown: its body is neither empty nor the mark of a
    deleted or removed comment. *)
Definition visible (c : Comment) : Prop :=
  body c <> "" /\ body c <> "[deleted]" /\ body c <> "[removed]".

(** The comments that a fetched submission gives for a limit. *)
Definition shown_comments (thread : RedditClient.Thread) (limit : Z) : list Comment :=
  map RedditClient.to_comment
    (List.filter RedditClient.is_visible
       (RedditClient.slice_to (RedditClient.thread_comments thread) limit)).

(** The answer of the stable upstream of the examples. *)
Definition example_answer (subreddit : string)
  : option (list RedditClient.Submission) :=
  if String.eqb subreddit "gaming" then None
  else Some [example_submission subreddit "A post"].

(** A comment of the upstream with a body, for the examples. *)
Definition example_reply (text : string) : RedditClient.Reply :=
  {| RedditClient.reply_author := "author";
     RedditClient.reply_body := text;
     RedditClient.reply_score := 3;
     RedditClient.reply_created_utc := 1700000100 |}.

(** A submission with five comments, of which the second is deleted, the
    third empty and the fourth removed. *)
Definition example_thread : RedditClient.Thread :=
  {| RedditClient.thread_comments :=
       [example_reply "First"; example_reply "[deleted]"; example_reply "";
        example_reply "[removed]"; example_reply "Fifth"];
     RedditClient.expandReplies := fun _ => Returns tt |}.

(** An upstream that returns [example_thread] for every post. *)
Definition same_thread (postId : string) (n : Z) : outcome RedditClient.Thread :=
  Returns example_thread.

(** The comment that [fetchPostsWithComments] returns for a post of the
    list: it is shown and bears the id, the title and the subreddit of the
    post. *)
Definition comment_of (posts : list Post) (pc : RedditClient.PostComment) : Prop :=
  visible (RedditClient.comment pc)
  /\ exists post,
       In post posts
       /\ RedditClient.post_id pc = id post
       /\ RedditClient.post_title pc = title post
       /\ RedditClient.comment_subreddit pc = subreddit post.

(** The rank of a sentiment label, from the most negative to the most
    positive; no other string has a rank. *)
Definition rank (label : string) : option Z :=
  if String.eqb label "Very Negative" then Some 0
  else if String.eqb label "Negative" then Some 1
  else if String.eqb label "Neutral" then Some 2
  else if String.eqb label "Positive" then Some 3
  else if String.eqb label "Very Positive" then Some 4
  else None.

(** The number of comments whose text the library scores in a band. *)
Definition scored_in (library : string -> SentimentAnalyzer.LibraryResult)
  (band : Z -> bool) (comments : list Comment) : Z :=
  Z.of_nat (length (List.filter
    (fun c => band (SentimentAnalyzer.lib_score (library (body c)))) comments)).

(** The sum of the five counters of the statistics. *)
Definition counted (stats : SentimentAnalyzer.Statistics) : Z :=
  SentimentAnalyzer.veryPositive stats + SentimentAnalyzer.stat_positive stats
  + SentimentAnalyzer.neutral stats + SentimentAnalyzer.stat_negative stats
  + SentimentAnalyzer.veryNegative stats.

(** The number of items that bear a label. *)
Definition count_label (name : string)
  (items : list (option SentimentAnalyzer.item_sentiment)) : Z :=
  Z.of_nat (length (List.filter
    (fun item =>
       match SentimentAnalyzer.label_of item with
       | Some label => String.eqb label name
       | None => false
       end) items)).

(** The pause that the batch makes after a subreddit of the list. *)
Definition pause_after (subreddits : list string) (subreddit : string) : list Q :=
  if RedditClient.indexOf subreddits subreddit <? Z.of_nat (length subreddits) - 1
  then [1000%Q] else [].

(** An upstream that answers every request with one post. *)
Definition always_answers (subreddit : string) (limit n : Z)
  : outcome (list RedditClient.Submission) :=
  Returns [example_submission subreddit "A post"].

(** * Properties *)

(** ** Characters and strings *)

Section TextFacts.

Ltac each_char c :=
  destruct c as [[] [] [] [] [] [] [] []]; vm_compute; intros;
  first [reflexivity | discriminate | congruence | auto].

Lemma normalized_char c :
  let c' := Text.blank_nonword (Text.lower_char c) in
  Text.is_space c' = true \/ is_key_char c' = true.
Proof. each_char c. Qed.

Lemma key_char_lower c : is_key_char c = true -> Text.lower_char c = c.
Proof. each_char c. Qed.

Lemma key_char_punctuation c :
  is_key_char c = true -> Text.is_punctuation c = true -> c = "_"%char.
Proof. each_char c. Qed.

Lemma all_chars_app p s c :
  Text.all_chars p (s +:+ String c EmptyString) = Text.all_chars p s && p c.
Proof.
  induction s as [|a s IH]; simpl.
  - now rewrite andb_true_r.
  - rewrite IH. now rewrite andb_assoc.
Qed.

Lemma all_chars_map p f s :
  Text.all_chars p (Text.map_chars f s) = Text.all_chars (fun c => p (f c)) s.
Proof. induction s as [|a s IH]; simpl; [reflexivity | now rewrite IH]. Qed.

Lemma all_chars_weaken (p q : ascii -> bool) s :
  (forall c, p c = true -> q c = true) ->
  Text.all_chars p s = true -> Text.all_chars q s = true.
Proof.
  intros Hpq. induction s as [|a s IH]; simpl; [reflexivity |].
  rewrite !andb_true_iff. intros [Ha Hs]. split; [now apply Hpq | now apply IH].
Qed.

(** Every piece of a split is made of the characters that are not white
    space. *)
Lemma split_from_chars p s : forall cur in_run w,
  Text.all_chars (fun c => Text.is_space c || p c) s = true ->
  Text.all_chars p cur = true ->
  In w (Text.split_from cur in_run s) ->
  Text.all_chars p w = true.
Proof.
  induction s as [|a s IH]; simpl; intros cur in_run w Hs Hcur Hw.
  - destruct Hw as [<- | []]. exact Hcur.
  - apply andb_true_iff in Hs as [Ha Hs].
    destruct (Text.is_space a) eqn:Hsp.
    + destruct in_run.
      * apply (IH EmptyString true w Hs eq_refl Hw).
      * destruct Hw as [<- | Hw]; [exact Hcur |].
        apply (IH EmptyString true w Hs eq_refl Hw).
    + simpl in Ha.
      apply (IH (cur +:+ String a EmptyString) false w Hs); [| exact Hw].
      rewrite all_chars_app, Hcur, Ha. reflexivity.
Qed.

Lemma map_chars_id f s :
  Text.all_chars (fun c => if ascii_dec (f c) c then true else false) s = true ->
  Text.map_chars f s = s.
Proof.
  induction s as [|a s IH]; simpl; [reflexivity |].
  rewrite andb_true_iff. intros [Ha Hs].
  destruct (ascii_dec (f a) a) as [-> | ]; [| discriminate].
  now rewrite IH.
Qed.

End TextFacts.

(** ** The words of a text *)

Section Words.

Import TrendAnalyzer.

Lemma words_of_keep text w : In w (words_of text) -> keep_word w = true.
Proof. unfold words_of. intros Hw. now apply filter_In in Hw. Qed.

Lemma words_of_chars text w :
  In w (words_of text) -> Text.all_chars is_key_char w = true.
Proof.
  unfold words_of. intros Hw. apply filter_In in Hw as [Hw _].
  unfold Text.split_whitespace in Hw.
  apply (split_from_chars is_key_char
           (Text.replace_nonword (Text.toLowerCase text)) EmptyString false w);
    [| reflexivity | exact Hw].
  unfold Text.replace_nonword, Text.toLowerCase.
  rewrite !all_chars_map.
  clear Hw. induction text as [|a s IH]; simpl; [reflexivity |].
  apply andb_true_iff. split; [| exact IH].
  apply orb_true_iff. exact (normalized_char a).
Qed.

(** A word is none of the method names with a capital. *)
Lemma word_prototype_method text w :
  In w (words_of text) -> Js.is_prototype_method w = true -> w = "constructor".
Proof.
  intros Hw Hm. apply words_of_chars in Hw.
  unfold Js.is_prototype_method, Js.prototype_methods in Hm.
  simpl in Hm. rewrite !orb_true_iff in Hm.
  repeat (destruct Hm as [Hm | Hm];
          [apply String.eqb_eq in Hm; subst w;
           first [reflexivity | vm_compute in Hw; discriminate] |]).
  discriminate.
Qed.

End Words.

(** ** Objects *)

Section Objects.

Lemma own_put o k v k' :
  Js.own (Js.put o k v) k' = if String.eqb k k' then Some v else Js.own o k'.
Proof.
  induction o as [|[k0 v0] o IH]; simpl.
  - reflexivity.
  - destruct (String.eqb k0 k) eqn:E0; simpl.
    + apply String.eqb_eq in E0. subst k0.
      destruct (String.eqb k k'); reflexivity.
    + rewrite IH. destruct (String.eqb k0 k') eqn:E1; [| reflexivity].
      apply String.eqb_eq in E1. subst k0.
      rewrite String.eqb_sym, E0. reflexivity.
Qed.

Lemma own_set o k v k' :
  Js.own (Js.set o k v) k' =
  if String.eqb k "__proto__" then Js.own o k'
  else if String.eqb k k' then Some v else Js.own o k'.
Proof.
  unfold Js.set. destruct (String.eqb k "__proto__"); [reflexivity |].
  apply own_put.
Qed.

Lemma own_keys o k : In k (Js.keys o) <-> exists v, Js.own o k = Some v.
Proof.
  induction o as [|[k0 v0] o IH]; simpl.
  - split; [intros [] | intros [v Hv]; discriminate].
  - destruct (String.eqb k0 k) eqn:E.
    + apply String.eqb_eq in E. split; [eauto | auto].
    + apply String.eqb_neq in E. rewrite IH. split.
      * intros [Hk | Hk]; [contradiction | exact Hk].
      * auto.
Qed.

Lemma own_entry o k v : Js.own o k = Some v -> In (k, v) o.
Proof.
  induction o as [|[k0 v0] o IH]; simpl; [discriminate |].
  destruct (String.eqb k0 k) eqn:E.
  - apply String.eqb_eq in E. intros [= ->]. left. now subst.
  - intros H. right. now apply IH.
Qed.

Lemma entry_own o k v : List.NoDup (Js.keys o) -> In (k, v) o -> Js.own o k = Some v.
Proof.
  induction o as [|[k0 v0] o IH]; simpl; [intros _ [] |].
  intros Hnd Hin. apply NoDup_cons_iff in Hnd as [Hk0 Hnd].
  destruct Hin as [[= -> ->] | Hin].
  - now rewrite String.eqb_refl.
  - destruct (String.eqb k0 k) eqn:E.
    + apply String.eqb_eq in E. subst k0. exfalso. apply Hk0.
      apply in_map_iff. exists (k, v). auto.
    + now apply IH.
Qed.

Lemma keys_put o k v k' : In k' (Js.keys (Js.put o k v)) <-> k' = k \/ In k' (Js.keys o).
Proof.
  rewrite !own_keys. setoid_rewrite own_put.
  destruct (String.eqb k k') eqn:E.
  - apply String.eqb_eq in E. split; [auto | eauto].
  - apply String.eqb_neq in E. split; [auto |].
    intros [-> | H]; [contradiction | exact H].
Qed.

Lemma keys_set o k v k' :
  In k' (Js.keys (Js.set o k v)) -> k' = k \/ In k' (Js.keys o).
Proof.
  unfold Js.set. destruct (String.eqb k "__proto__"); [auto |].
  apply keys_put.
Qed.

Lemma keys_set_keep o k v k' :
  In k' (Js.keys o) -> In k' (Js.keys (Js.set o k v)).
Proof.
  unfold Js.set. destruct (String.eqb k "__proto__"); [auto |].
  intros H. apply keys_put. auto.
Qed.

Lemma NoDup_keys_put o k v : List.NoDup (Js.keys o) -> List.NoDup (Js.keys (Js.put o k v)).
Proof.
  induction o as [|[k0 v0] o IH]; simpl; intros Hnd.
  - constructor; [intros [] | constructor].
  - apply NoDup_cons_iff in Hnd as [Hk0 Hnd].
    destruct (String.eqb k0 k) eqn:E; simpl.
    + constructor; assumption.
    + constructor; [| now apply IH].
      intros Hin. apply keys_put in Hin as [-> | Hin]; [| contradiction].
      rewrite String.eqb_refl in E. discriminate.
Qed.

Lemma NoDup_keys_set o k v : List.NoDup (Js.keys o) -> List.NoDup (Js.keys (Js.set o k v)).
Proof.
  unfold Js.set. destruct (String.eqb k "__proto__"); [auto |].
  apply NoDup_keys_put.
Qed.

End Objects.

Section Frequencies.

Import TrendAnalyzer.

Lemma plain_word text w :
  In w (words_of text) -> w <> "constructor" -> w <> "__proto__" -> plain w.
Proof.
  intros Hw Hc Hp. split; [exact Hp |].
  destruct (Js.is_prototype_method w) eqn:E; [| reflexivity].
  exfalso. apply Hc. now apply (word_prototype_method text).
Qed.

Lemma get_plain o k : plain k ->
  Js.get o k = match Js.own o k with Some v => v | None => Js.JUndefined end.
Proof.
  intros [Hp Hm]. unfold Js.get. destruct (Js.own o k); [reflexivity |].
  apply String.eqb_neq in Hp. now rewrite Hp, Hm.
Qed.

(** Adding a counter to what a plain name is bound to. *)
Lemma bump_plain o k c : plain k -> counts o -> 1 <= c ->
  exists n, Js.add (Js.or (Js.get o k) (Js.JNum 0)) (Js.JNum c) = Js.JNum n /\ c <= n.
Proof.
  intros Hk Ho Hc. rewrite (get_plain o k Hk).
  destruct (Js.own o k) as [v|] eqn:E.
  - destruct (Ho k v Hk E) as (n & -> & Hn).
    unfold Js.or, Js.truthy. destruct (n =? 0) eqn:E0; [lia |].
    simpl. exists (n + c). split; [reflexivity | lia].
  - simpl. exists c. split; [reflexivity | lia].
Qed.

Lemma counts_set o k v :
  counts o -> (plain k -> is_count v) -> counts (Js.set o k v).
Proof.
  intros Ho Hv k' v' Hk'. rewrite own_set.
  destruct (String.eqb k "__proto__"); [apply Ho; exact Hk' |].
  destruct (String.eqb k k') eqn:E; [| apply Ho; exact Hk'].
  apply String.eqb_eq in E. subst k'. intros [= <-]. now apply Hv.
Qed.

Lemma counts_count_word o w : counts o -> counts (count_word o w).
Proof.
  intros Ho. apply counts_set; [exact Ho |]. intros Hw.
  destruct (bump_plain o w 1 Hw Ho) as (n & -> & Hn); [lia |].
  exists n. split; [reflexivity | lia].
Qed.

Lemma counts_merge_entry o k v :
  counts o -> (plain k -> is_count v) -> counts (merge_entry o (k, v)).
Proof.
  intros Ho Hv. apply counts_set; [exact Ho |]. intros Hk.
  destruct (Hv Hk) as (c & -> & Hc).
  destruct (bump_plain o k c Hk Ho Hc) as (n & -> & Hn).
  exists n. split; [reflexivity | lia].
Qed.

Lemma counts_fold_count ws : forall o, counts o -> counts (fold_left count_word ws o).
Proof.
  induction ws as [|w ws IH]; simpl; intros o Ho; [exact Ho |].
  apply IH. now apply counts_count_word.
Qed.

Lemma counts_empty : counts [].
Proof. intros k v _ H. discriminate. Qed.

Lemma counts_extractKeywords text : counts (extractKeywords text).
Proof. apply counts_fold_count, counts_empty. Qed.

(** The keys of a frequency map are words of the text, each once. *)
Lemma keys_fold_count ws : forall o k,
  In k (Js.keys (fold_left count_word ws o)) -> In k (Js.keys o) \/ In k ws.
Proof.
  induction ws as [|w ws IH]; simpl; intros o k Hk; [auto |].
  apply IH in Hk as [Hk | Hk]; [| auto].
  apply keys_set in Hk as [-> | Hk]; auto.
Qed.

Lemma keys_extractKeywords text k :
  In k (Js.keys (extractKeywords text)) -> In k (words_of text).
Proof. intros Hk. apply keys_fold_count in Hk as [[] | Hk]. exact Hk. Qed.

Lemma NoDup_fold_count ws : forall o,
  List.NoDup (Js.keys o) -> List.NoDup (Js.keys (fold_left count_word ws o)).
Proof.
  induction ws as [|w ws IH]; simpl; intros o Ho; [exact Ho |].
  apply IH. now apply NoDup_keys_set.
Qed.

(** A plain word of the text is a key of its frequency map. *)
Lemma fold_count_keeps ws : forall o k,
  In k (Js.keys o) -> In k (Js.keys (fold_left count_word ws o)).
Proof.
  induction ws as [|w ws IH]; simpl; intros o k Hk; [exact Hk |].
  apply IH. now apply keys_set_keep.
Qed.

Lemma set_plain_key o k v : plain k -> In k (Js.keys (Js.set o k v)).
Proof.
  intros [Hp _]. unfold Js.set. apply String.eqb_neq in Hp. rewrite Hp.
  apply keys_put. auto.
Qed.

Lemma fold_count_adds ws : forall o k,
  plain k -> In k ws -> In k (Js.keys (fold_left count_word ws o)).
Proof.
  induction ws as [|w ws IH]; simpl; intros o k Hk Hin; [contradiction |].
  destruct Hin as [-> | Hin].
  - apply fold_count_keeps. now apply set_plain_key.
  - now apply IH.
Qed.

Lemma proto_never_own o k v :
  In "__proto__" (Js.keys (Js.set o k v)) -> In "__proto__" (Js.keys o).
Proof.
  unfold Js.set. destruct (String.eqb k "__proto__") eqn:E; [auto |].
  intros H. apply keys_put in H as [<- | H]; [discriminate | exact H].
Qed.

(** Apart from [constructor], every key of a frequency map is bound to a
    number that is at least 1. *)
Lemma extractKeywords_values text k v :
  Js.own (extractKeywords text) k = Some v -> k <> "constructor" -> is_count v.
Proof.
  intros Hv Hc. assert (Hk : In k (Js.keys (extractKeywords text)))
    by (apply own_keys; eauto).
  apply (counts_extractKeywords text k v); [| exact Hv].
  apply (plain_word text); [now apply keys_extractKeywords | exact Hc |].
  intros ->. revert Hk. unfold extractKeywords.
  generalize (words_of text) as ws.
  assert (H : forall ws o, In "__proto__" (Js.keys (fold_left count_word ws o)) ->
                           In "__proto__" (Js.keys o)).
  { induction ws as [|w ws IH]; simpl; intros o Ho; [exact Ho |].
    apply IH in Ho. now apply proto_never_own in Ho. }
  intros ws Hk. now apply H in Hk.
Qed.

Lemma extractKeywords_has text k :
  plain k -> In k (words_of text) -> In k (Js.keys (extractKeywords text)).
Proof. intros Hk Hin. now apply fold_count_adds. Qed.

End Frequencies.

(** ** The strings that the program builds *)

Section ProgramStrings.

Import TrendAnalyzer.

Lemma prefix_app p : forall a b,
  String.prefix p a = true -> String.prefix p (a +:+ b) = true.
Proof.
  induction p as [|c p IH]; intros a b; [destruct (a +:+ b); reflexivity |].
  destruct a as [|c' a]; simpl; [discriminate |].
  destruct (ascii_dec c c'); [apply IH | discriminate].
Qed.

Lemma includes_app_l p a b :
  Text.includes p a = true -> Text.includes p (a +:+ b) = true.
Proof.
  induction a as [|c a IH]; simpl.
  - rewrite orb_false_r. intros H. destruct p; [| discriminate].
    destruct b; reflexivity.
  - rewrite !orb_true_iff. intros [H | H].
    + left. exact (prefix_app p (String c a) b H).
    + right. now apply IH.
Qed.

Lemma includes_app_r p a b :
  Text.includes p b = true -> Text.includes p (a +:+ b) = true.
Proof.
  intros H. induction a as [|c a IH]; simpl; [exact H |].
  apply orb_true_iff. right. exact IH.
Qed.

Lemma native_text_app_l a b : Js.native_text a = true -> Js.native_text (a +:+ b) = true.
Proof.
  unfold Js.native_text. rewrite !orb_true_iff.
  intros [H | H]; [left | right]; now apply includes_app_l.
Qed.

Lemma native_text_app_r a b : Js.native_text b = true -> Js.native_text (a +:+ b) = true.
Proof.
  unfold Js.native_text. rewrite !orb_true_iff.
  intros [H | H]; [left | right]; now apply includes_app_r.
Qed.

Lemma native_text_function name : Js.native_text (Js.to_string (Js.JFunction name)) = true.
Proof.
  unfold Js.to_string. apply native_text_app_r, native_text_app_r. reflexivity.
Qed.

(** What a name is read as: a value of the object, or an inherited one. *)
Lemma get_cases o k :
  program_object o ->
  program_value (Js.get o k) \/ Js.get o k = Js.JObjectPrototype
  \/ Js.get o k = Js.JFunction k \/ Js.get o k = Js.JUndefined.
Proof.
  intros Ho. unfold Js.get. destruct (Js.own o k) as [v|] eqn:E.
  - left. apply (Ho k v). now apply own_entry.
  - destruct (String.eqb k "__proto__"); [auto |].
    destruct (Js.is_prototype_method k); auto.
Qed.

Lemma program_value_sum o k count :
  program_object o -> program_value count ->
  program_value (Js.add (Js.or (Js.get o k) (Js.JNum 0)) count).
Proof.
  intros Ho Hc. destruct (get_cases o k Ho) as [H | [-> | [-> | ->]]].
  - destruct (Js.get o k) as [| |n|s| |]; try contradiction.
    + unfold Js.or. simpl. destruct (negb (n =? 0));
        destruct count as [| |m|t| |]; try contradiction; simpl; auto;
        now apply native_text_app_r.
    + unfold Js.or. simpl. destruct (negb (String.eqb s ""));
        destruct count as [| |m|t| |]; try contradiction; simpl; auto;
        first [now apply native_text_app_l | now apply native_text_app_r].
  - change (Js.native_text
              (Js.to_string Js.JObjectPrototype +:+ Js.to_string count) = true).
    apply native_text_app_l. reflexivity.
  - change (Js.native_text
              (Js.to_string (Js.JFunction k) +:+ Js.to_string count) = true).
    apply native_text_app_l, native_text_function.
  - destruct count as [| |m|t| |]; try contradiction; [exact I |].
    change (Js.native_text (pretty 0 +:+ t) = true). now apply native_text_app_r.
Qed.

Lemma put_entries o k v k' v' :
  In (k', v') (Js.put o k v) -> (k' = k /\ v' = v) \/ In (k', v') o.
Proof.
  induction o as [|[k0 v0] o IH]; simpl.
  - intros [[= <- <-] | []]. auto.
  - destruct (String.eqb k0 k) eqn:E; simpl.
    + apply String.eqb_eq in E. subst k0.
      intros [[= <- <-] | H]; auto.
    + intros [H | H]; [auto |]. apply IH in H as [H | H]; auto.
Qed.

Lemma program_object_set o k v :
  program_object o -> program_value v -> program_object (Js.set o k v).
Proof.
  intros Ho Hv k' v' Hin. unfold Js.set in Hin.
  destruct (String.eqb k "__proto__"); [now apply (Ho k' v') |].
  apply put_entries in Hin as [[_ ->] | Hin]; [exact Hv | now apply (Ho k' v')].
Qed.

(** Every value of a frequency map is a number or a string with the text
    of an inherited property: the strings of the program are not
    numerals. *)
Lemma program_object_extractKeywords text : program_object (extractKeywords text).
Proof.
  unfold extractKeywords. generalize (words_of text) as ws.
  assert (H : forall ws o, program_object o -> program_object (fold_left count_word ws o)).
  { induction ws as [|w ws IH]; simpl; intros o Ho; [exact Ho |].
    apply IH. apply program_object_set; [exact Ho |].
    now apply program_value_sum. }
  intros ws. apply H. intros k v [].
Qed.

Lemma program_object_mergeFrequencies maps :
  List.Forall program_object maps -> program_object (mergeFrequencies maps).
Proof.
  unfold mergeFrequencies.
  assert (Hmap : forall map o, program_object map -> program_object o ->
                               program_object (fold_left merge_entry map o)).
  { induction map as [|[w c] map IH]; simpl; intros o Hm Ho; [exact Ho |].
    apply IH.
    - intros k v Hin. apply (Hm k v). now right.
    - apply program_object_set; [exact Ho |].
      apply program_value_sum; [exact Ho |]. apply (Hm w c). now left. }
  assert (H : forall maps o, List.Forall program_object maps -> program_object o ->
      program_object (fold_left (fun merged map => fold_left merge_entry map merged) maps o)).
  { induction maps0 as [|map maps0 IH]; simpl; intros o Hms Ho; [exact Ho |].
    apply Forall_cons_iff in Hms as [Hm Hms]. apply IH; [exact Hms |].
    now apply Hmap. }
  intros Hms. apply H; [exact Hms |]. intros k v [].
Qed.

End ProgramStrings.

(** ** extractKeywords *)

Section ExtractKeywords.

Import TrendAnalyzer.

(** C1 (as stated, refuted): the frequency map of the text
    "The Game is SO GOOD!!" is not {game: 1, good: 1}: it binds no
    [good], which is a stop word. *)
Lemma extractKeywords_example_has_no_good :
  ~ (forall k, Js.own (extractKeywords "The Game is SO GOOD!!") k =
               Js.own [("game", Js.JNum 1); ("good", Js.JNum 1)] k).
Proof. intros H. specialize (H "good"). vm_compute in H. discriminate. Qed.

(** C1 (amended): the frequency map of the text "The Game is SO GOOD!!"
    is exactly {game: 1}; [good] is in the stop-word set. *)
Theorem extractKeywords_example :
  extractKeywords "The Game is SO GOOD!!" = [("game", Js.JNum 1)]
  /\ is_stop_word "good" = true.
Proof. split; vm_compute; reflexivity. Qed.

(** C5 (as stated, refuted): the text "snake_case" gives the key
    [snake_case], which holds the punctuation character underscore. *)
Lemma extractKeywords_keeps_underscore :
  In "snake_case" (Js.keys (extractKeywords "snake_case"))
  /\ Text.has_char Text.is_punctuation "snake_case" = true.
Proof. split; vm_compute; auto. Qed.

(** C5 (amended): every key of the frequency map of a text is longer
    than 3, is left unchanged by toLowerCase, is made of the small
    letters a-z, the digits and the underscore only (so the underscore is
    the one punctuation character it can hold), is no stop word and is
    not purely numeric. *)
Theorem extractKeywords_keys text k :
  In k (Js.keys (extractKeywords text)) ->
  (3 < String.length k)%nat
  /\ Text.toLowerCase k = k
  /\ Text.all_chars is_key_char k = true
  /\ Text.all_chars
       (fun c => negb (Text.is_punctuation c) || (Text.code c =? 95)%N) k = true
  /\ is_stop_word k = false
  /\ Text.is_numeric k = false.
Proof.
  intros Hk. apply keys_extractKeywords in Hk.
  pose proof (words_of_keep _ _ Hk) as Hkeep.
  pose proof (words_of_chars _ _ Hk) as Hchars.
  unfold keep_word in Hkeep.
  apply andb_true_iff in Hkeep as [Hkeep Hnum].
  apply andb_true_iff in Hkeep as [Hlen Hstop].
  apply negb_true_iff in Hnum, Hstop. apply Nat.ltb_lt in Hlen.
  repeat split; try assumption.
  - apply map_chars_id. revert Hchars. apply all_chars_weaken.
    intros c Hc. rewrite (key_char_lower c Hc).
    destruct (ascii_dec c c); [reflexivity | contradiction].
  - revert Hchars. apply all_chars_weaken. intros c Hc.
    destruct (Text.is_punctuation c) eqn:Hp; [| reflexivity].
    rewrite (key_char_punctuation c Hc Hp). reflexivity.
Qed.

Lemma extractKeywords_keys_witness :
  In "game" (Js.keys (extractKeywords "The Game is SO GOOD!!"))
  /\ (3 < String.length "game")%nat
  /\ is_stop_word "game" = false.
Proof.
  assert (H : In "game" (Js.keys (extractKeywords "The Game is SO GOOD!!")))
    by (vm_compute; auto).
  split; [exact H |].
  destruct (extractKeywords_keys _ _ H) as (Hlen & _ & _ & _ & Hstop & _).
  split; assumption.
Defined.

(** C9 (the defect): for the text "constructor" the value of the
    frequency map is no number at all: [frequency[word]] reads the
    function [Object] through the prototype chain, and adding 1 to it
    gives a string. The other half of the claim holds: the empty text
    gives the empty map. *)
Theorem extractKeywords_constructor :
  extractKeywords "constructor" =
    [("constructor", Js.JStr "function Object() { [native code] }1")]
  /\ extractKeywords "" = [].
Proof. split; vm_compute; reflexivity. Qed.

End ExtractKeywords.

(** ** mergeFrequencies and the analyses *)

Section Merge.

Import TrendAnalyzer.

Lemma frequency_map_entries o : frequency_map o -> entries_count o.
Proof.
  intros [Hnd Ho] k v Hin Hk. apply (Ho k v Hk). now apply entry_own.
Qed.

Lemma frequency_map_extractKeywords text : frequency_map (extractKeywords text).
Proof.
  split; [| apply counts_extractKeywords].
  apply NoDup_fold_count. constructor.
Qed.

Lemma in_keys (o : Js.object) k v : In (k, v) o -> In k (Js.keys o).
Proof. intros H. apply in_map_iff. exists (k, v). auto. Qed.

(** Merging one map into [merged]. *)
Lemma merge_map_spec map : forall merged,
  frequency_map merged -> entries_count map ->
  let merged' := fold_left merge_entry map merged in
  frequency_map merged'
  /\ (forall k, In k (Js.keys merged') -> In k (Js.keys merged) \/ In k (Js.keys map))
  /\ (forall k, In k (Js.keys merged) -> In k (Js.keys merged'))
  /\ (forall k, plain k -> In k (Js.keys map) -> In k (Js.keys merged')).
Proof.
  induction map as [|[w c] map IH]; simpl; intros merged Hm Hmap.
  - repeat split; try apply Hm; auto. intros k _ [].
  - assert (Hstep : frequency_map (merge_entry merged (w, c))).
    { destruct Hm as [Hnd Hc]. split.
      - now apply NoDup_keys_set.
      - apply counts_merge_entry; [exact Hc |]. intros Hw.
        apply (Hmap w c); [now left | exact Hw]. }
    assert (Hrest : entries_count map).
    { intros k v Hin. apply Hmap. now right. }
    destruct (IH _ Hstep Hrest) as (Hfm & Hsub & Hkeep & Hadd).
    repeat split; try apply Hfm.
    + intros k Hk. apply Hsub in Hk as [Hk | Hk]; [| auto].
      apply keys_set in Hk as [-> | Hk]; auto.
    + intros k Hk. apply Hkeep. now apply keys_set_keep.
    + intros k Hk [<- | Hin].
      * apply Hkeep. now apply set_plain_key.
      * now apply Hadd.
Qed.

Lemma merge_into_spec maps : forall merged,
  frequency_map merged -> Forall frequency_map maps ->
  let merged' := merge_into merged maps in
  frequency_map merged'
  /\ (forall k, In k (Js.keys merged') ->
                In k (Js.keys merged) \/ exists m, In m maps /\ In k (Js.keys m))
  /\ (forall k, In k (Js.keys merged) -> In k (Js.keys merged'))
  /\ (forall k m, plain k -> In m maps -> In k (Js.keys m) -> In k (Js.keys merged')).
Proof.
  induction maps as [|map maps IH]; simpl; intros merged Hm Hmaps.
  - repeat split; try apply Hm; auto. intros k m _ [].
  - apply Forall_cons_iff in Hmaps as [Hmap Hmaps].
    destruct (merge_map_spec map merged Hm (frequency_map_entries _ Hmap))
      as (Hfm1 & Hsub1 & Hkeep1 & Hadd1).
    destruct (IH _ Hfm1 Hmaps) as (Hfm & Hsub & Hkeep & Hadd).
    repeat split; try apply Hfm.
    + intros k Hk. apply Hsub in Hk as [Hk | (m & Hm' & Hk)].
      * apply Hsub1 in Hk as [Hk | Hk]; [auto | right; exists map; auto].
      * right. exists m. auto.
    + intros k Hk. auto.
    + intros k m Hk [<- | Hin] Hkm.
      * apply Hkeep. now apply Hadd1.
      * now apply (Hadd k m).
Qed.

Lemma frequency_map_empty : frequency_map [].
Proof. split; [constructor | apply counts_empty]. Qed.

Lemma mergeFrequencies_spec maps :
  Forall frequency_map maps ->
  frequency_map (mergeFrequencies maps)
  /\ (forall k, In k (Js.keys (mergeFrequencies maps)) ->
                exists m, In m maps /\ In k (Js.keys m))
  /\ (forall k m, plain k -> In m maps -> In k (Js.keys m) ->
                  In k (Js.keys (mergeFrequencies maps))).
Proof.
  intros Hmaps.
  destruct (merge_into_spec maps [] frequency_map_empty Hmaps)
    as (Hfm & Hsub & _ & Hadd).
  repeat split; try apply Hfm; [| exact Hadd].
  intros k Hk. apply Hsub in Hk as [[] | Hk]. exact Hk.
Qed.

Lemma post_frequencies_eq post :
  post_frequencies post =
  mergeFrequencies [extractKeywords (title post); extractKeywords (text post)].
Proof.
  unfold post_frequencies. destruct (String.eqb (text post) "") eqn:E; simpl.
  - apply String.eqb_eq in E. rewrite E. reflexivity.
  - reflexivity.
Qed.

Lemma post_frequencies_spec post :
  frequency_map (post_frequencies post)
  /\ (forall k, In k (Js.keys (post_frequencies post)) -> In k (post_words post))
  /\ (forall k, plain k -> In k (post_words post) ->
                In k (Js.keys (post_frequencies post))).
Proof.
  rewrite post_frequencies_eq.
  destruct (mergeFrequencies_spec
              [extractKeywords (title post); extractKeywords (text post)])
    as (Hfm & Hsub & Hadd).
  { repeat constructor; apply frequency_map_extractKeywords. }
  split; [exact Hfm |]. unfold post_words. split.
  - intros k Hk. apply Hsub in Hk as (m & Hm & Hk). apply in_or_app.
    destruct Hm as [<- | [<- | []]]; [left | right]; now apply keys_extractKeywords.
  - intros k Hk Hin. apply in_app_or in Hin as [Hin | Hin].
    + apply (Hadd k (extractKeywords (title post))); simpl; auto.
      now apply extractKeywords_has.
    + apply (Hadd k (extractKeywords (text post))); simpl; auto.
      now apply extractKeywords_has.
Qed.

(** The map [merged] of [analyzeTrendingKeywords]. *)
Lemma merged_posts_spec posts :
  let merged := mergeFrequencies (map post_frequencies posts) in
  frequency_map merged
  /\ (forall k, In k (Js.keys merged) -> In k (all_words posts))
  /\ (forall k, plain k -> In k (all_words posts) -> In k (Js.keys merged)).
Proof.
  destruct (mergeFrequencies_spec (map post_frequencies posts))
    as (Hfm & Hsub & Hadd).
  { apply List.Forall_forall. intros m Hm. apply in_map_iff in Hm as (post & <- & _).
    apply post_frequencies_spec. }
  simpl. split; [exact Hfm |]. unfold all_words. split.
  - intros k Hk. apply Hsub in Hk as (m & Hm & Hk).
    apply in_map_iff in Hm as (post & <- & Hpost).
    apply in_flat_map. exists post. split; [exact Hpost |].
    now apply post_frequencies_spec.
  - intros k Hk Hin. apply in_flat_map in Hin as (post & Hpost & Hin).
    apply (Hadd k (post_frequencies post) Hk).
    + apply in_map_iff. eauto.
    + now apply post_frequencies_spec.
Qed.

End Merge.

(** ** analyzeTrendingKeywords *)

Section Analyze.

Import TrendAnalyzer.

Lemma insert_entry_In e x l : In e (insert_entry x l) <-> e = x \/ In e l.
Proof.
  induction l as [|y l IH]; simpl.
  - split; [intros [<- | []]; auto | intros [-> | []]; auto].
  - destruct (Js.gt (snd y) (snd x)); simpl; rewrite ?IH; intuition congruence.
Qed.

Lemma sort_entries_In e l : In e (sort_entries l) <-> In e l.
Proof.
  induction l as [|x l IH]; simpl; [reflexivity |].
  rewrite insert_entry_In, IH. intuition congruence.
Qed.

Lemma insert_entry_length x l : length (insert_entry x l) = S (length l).
Proof.
  induction l as [|y l IH]; simpl; [reflexivity |].
  destruct (Js.gt (snd y) (snd x)); simpl; [now rewrite IH | reflexivity].
Qed.

Lemma sort_entries_length l : length (sort_entries l) = length l.
Proof.
  induction l as [|x l IH]; simpl; [reflexivity |].
  now rewrite insert_entry_length, IH.
Qed.

(** The [reduce] that rebuilds an object from entries. *)
Lemma rebuild_spec l : forall acc,
  List.NoDup (Js.keys acc) ->
  let r := fold_left (fun acc '(word, count) => Js.set acc word count) l acc in
  List.NoDup (Js.keys r)
  /\ (forall k, In k (Js.keys r) -> In k (Js.keys acc) \/ In k (map fst l))
  /\ (forall k, In k (Js.keys acc) -> In k (Js.keys r))
  /\ (forall k, plain k -> In k (map fst l) -> In k (Js.keys r)).
Proof.
  induction l as [|[w c] l IH]; simpl; intros acc Hacc.
  - repeat split; auto. intros k _ [].
  - destruct (IH (Js.set acc w c) (NoDup_keys_set acc w c Hacc))
      as (Hnd & Hsub & Hkeep & Hadd).
    repeat split; [exact Hnd | | |].
    + intros k Hk. apply Hsub in Hk as [Hk | Hk]; [| auto].
      apply keys_set in Hk as [-> | Hk]; auto.
    + intros k Hk. apply Hkeep. now apply keys_set_keep.
    + intros k Hk [<- | Hin].
      * apply Hkeep. now apply set_plain_key.
      * now apply Hadd.
Qed.

(** With the threshold 0 the filter keeps every plain name of a frequency
    map; it drops the names bound to a string, which compare as NaN. *)
Lemma filter_frequent_0 merged :
  frequency_map merged ->
  List.NoDup (Js.keys (filter_frequent merged 0))
  /\ (forall k, In k (Js.keys (filter_frequent merged 0)) -> In k (Js.keys merged))
  /\ (forall k, plain k -> In k (Js.keys merged) ->
                In k (Js.keys (filter_frequent merged 0))).
Proof.
  intros [Hnd Hc]. unfold filter_frequent.
  set (kept := List.filter _ merged).
  destruct (rebuild_spec kept [] (List.NoDup_nil _)) as (Hnd' & Hsub & _ & Hadd).
  split; [exact Hnd' |]. split.
  - intros k Hk. apply Hsub in Hk as [[] | Hk].
    apply in_map_iff in Hk as ([k' v] & <- & Hin).
    apply filter_In in Hin as [Hin _]. now apply (in_keys merged k' v).
  - intros k Hk Hin. apply Hadd; [exact Hk |].
    apply own_keys in Hin as [v Hv].
    destruct (Hc k v Hk Hv) as (n & -> & Hn).
    apply in_map_iff. exists (k, Js.JNum n). split; [reflexivity |].
    apply filter_In. split; [now apply own_entry |].
    simpl. apply Z.leb_le. lia.
Qed.

Lemma getTopKeywords_all frequencies limit :
  (length frequencies <= limit)%nat ->
  forall k, In k (Js.keys frequencies) ->
            In k (map keyword (getTopKeywords frequencies limit)).
Proof.
  intros Hlen k Hk. unfold getTopKeywords.
  rewrite firstn_all2 by (now rewrite sort_entries_length).
  rewrite map_map. simpl.
  apply in_map_iff in Hk as (e & <- & He).
  apply in_map_iff. exists e. split; [reflexivity |]. now apply sort_entries_In.
Qed.

(** C4 (as stated, refuted): the 31st keyword of [crowded_post] occurs in
    its title and is missing from the result of the analysis with the
    threshold 0, which keeps 30 entries. *)
Lemma analyzeTrendingKeywords_drops_31st :
  In "word31" (all_words [crowded_post])
  /\ ~ In "word31" (map keyword (analyzeTrendingKeywords [crowded_post] 0))
  /\ length (analyzeTrendingKeywords [crowded_post] 0) = 30%nat.
Proof.
  split; [vm_compute; tauto |]. split; [| vm_compute; reflexivity].
  intros H. vm_compute in H.
  repeat (destruct H as [H | H]; [discriminate H |]). exact H.
Qed.

(** C4 (amended): when the posts hold at most 30 different keywords, every
    keyword that occurs in a title or a text, other than the two names
    [constructor] and [__proto__], is in the result of the analysis with
    the threshold 0. *)
Theorem analyzeTrendingKeywords_threshold_0 posts w :
  In w (all_words posts) ->
  w <> "constructor" -> w <> "__proto__" ->
  (length (nodup string_dec (all_words posts)) <= 30)%nat ->
  In w (map keyword (analyzeTrendingKeywords posts 0)).
Proof.
  intros Hw Hc Hp Hlen.
  assert (Hplain : plain w).
  { unfold all_words in Hw. apply in_flat_map in Hw as (post & _ & Hw).
    apply in_app_or in Hw as [Hw | Hw]; eapply plain_word; eauto. }
  destruct (merged_posts_spec posts) as (Hfm & Hsub & Hadd).
  destruct (filter_frequent_0 _ Hfm) as (Hnd & Hsub' & Hadd').
  unfold analyzeTrendingKeywords. apply getTopKeywords_all.
  - rewrite <- (length_map fst). etransitivity; [| exact Hlen].
    apply NoDup_incl_length; [exact Hnd |].
    intros k Hk. apply nodup_In. apply Hsub. now apply Hsub'.
  - apply Hadd'; [exact Hplain |]. now apply Hadd.
Qed.

Lemma analyzeTrendingKeywords_threshold_0_witness :
  In "game" (map keyword
    (analyzeTrendingKeywords
       [example_post "gaming" "The Game is SO GOOD!!" "constructor" 10 2 0] 0)).
Proof.
  apply analyzeTrendingKeywords_threshold_0.
  - vm_compute. tauto.
  - discriminate.
  - discriminate.
  - vm_compute. lia.
Defined.

End Analyze.

(** ** getTrendsBySubreddit *)

Section BySubreddit.

Import TrendAnalyzer.

Lemma posts_of_snoc name done post :
  posts_of name (done ++ [post]) =
  posts_of name done ++ (if String.eqb (subreddit post) name then [post] else []).
Proof. unfold posts_of. rewrite List.filter_app. reflexivity. Qed.

Lemma group_post_grouped done bySubreddit post bySubreddit' :
  grouped done bySubreddit ->
  group_post bySubreddit post = Returns bySubreddit' ->
  grouped (done ++ [post]) bySubreddit'.
Proof.
  intros Hg Hstep name. rewrite posts_of_snoc.
  assert (Hnew : exists subPosts,
             bySubreddit' = <[subreddit post := subPosts ++ [post]]> bySubreddit
             /\ posts_of (subreddit post) done = subPosts).
  { unfold group_post in Hstep. pose proof (Hg (subreddit post)) as Hs.
    destruct (bySubreddit !! subreddit post) as [subPosts|] eqn:E.
    - injection Hstep as <-. exists subPosts. split; [reflexivity |].
      destruct (posts_of (subreddit post) done); [discriminate | congruence].
    - destruct (_ || _); [discriminate |]. injection Hstep as <-.
      exists []. split; [reflexivity |].
      destruct (posts_of (subreddit post) done); [reflexivity | discriminate]. }
  destruct Hnew as (subPosts & -> & Hsub).
  destruct (String.eqb (subreddit post) name) eqn:E.
  - apply String.eqb_eq in E. subst name. rewrite lookup_insert_eq, Hsub.
    destruct subPosts; reflexivity.
  - apply String.eqb_neq in E. rewrite lookup_insert_ne by exact E.
    rewrite app_nil_r. apply Hg.
Qed.

Lemma group_posts_grouped posts : forall done bySubreddit bySubreddit',
  grouped done bySubreddit ->
  group_posts bySubreddit posts = Returns bySubreddit' ->
  grouped (done ++ posts) bySubreddit'.
Proof.
  induction posts as [|post posts IH]; simpl; intros done m m' Hg Hrun.
  - injection Hrun as <-. now rewrite app_nil_r.
  - destruct (group_post m post) as [m1|e] eqn:E; [| discriminate].
    replace (done ++ post :: posts) with ((done ++ [post]) ++ posts)
      by (now rewrite <- app_assoc).
    apply (IH _ m1); [| exact Hrun].
    now apply (group_post_grouped done m).
Qed.

Lemma grouped_empty : grouped [] ∅.
Proof. intros name. apply lookup_empty. Qed.

(** The grouping goes through when no post bears a name that [{}]
    inherits. *)
Lemma group_posts_returns posts : forall bySubreddit,
  List.Forall (fun p => plain (subreddit p)) posts ->
  exists bySubreddit', group_posts bySubreddit posts = Returns bySubreddit'.
Proof.
  induction posts as [|post posts IH]; simpl; intros m Hplain.
  - eauto.
  - apply Forall_cons_iff in Hplain as [[Hp Hm] Hplain].
    unfold group_post. destruct (m !! subreddit post); [now apply IH |].
    apply String.eqb_neq in Hp. rewrite Hp, Hm. simpl. now apply IH.
Qed.

(** C10: every summary that [getTrendsBySubreddit] returns is the summary
    of the posts of its subreddit, of which there is at least one: the
    post count is at least 1 and the divisor of the average is not zero.
    The function returns for all posts whose subreddit is no name that an
    empty object inherits. *)
Theorem getTrendsBySubreddit_groups_nonempty posts :
  (List.Forall (fun p => plain (subreddit p)) posts ->
   exists trends, getTrendsBySubreddit posts = Returns trends)
  /\ (forall trends name summary,
        getTrendsBySubreddit posts = Returns trends ->
        trends !! name = Some summary ->
        summary = summarize (posts_of name posts)
        /\ postCount summary = length (posts_of name posts)
        /\ (1 <= postCount summary)%nat
        /\ divisor (posts_of name posts) <> 0).
Proof.
  unfold getTrendsBySubreddit. split.
  - intros Hplain. destruct (group_posts_returns posts ∅ Hplain) as [m ->]. eauto.
  - intros trends name summary Hrun Hlook.
    destruct (group_posts ∅ posts) as [m|e] eqn:E; [| discriminate].
    injection Hrun as <-.
    pose proof (group_posts_grouped posts [] ∅ m grouped_empty E name) as Hg.
    simpl in Hg. rewrite lookup_fmap, Hg in Hlook.
    destruct (posts_of name posts) as [|p subPosts] eqn:Hsub; [discriminate |].
    simpl in Hlook. injection Hlook as <-.
    repeat split; unfold divisor; simpl; lia.
Qed.

Lemma getTrendsBySubreddit_groups_nonempty_witness :
  let posts := [example_post "gaming" "The Game is SO GOOD!!" "" 10 2 0;
                example_post "movies" "A film about games" "" 7 1 0;
                example_post "gaming" "Another game" "" 4 0 0] in
  exists trends,
    getTrendsBySubreddit posts = Returns trends
    /\ forall summary, trends !! "gaming" = Some summary -> postCount summary = 2%nat.
Proof.
  intros posts.
  destruct (proj1 (getTrendsBySubreddit_groups_nonempty posts)) as [trends Hrun].
  { repeat constructor; simpl; discriminate. }
  exists trends. split; [exact Hrun |]. intros summary Hlook.
  destruct (proj2 (getTrendsBySubreddit_groups_nonempty posts)
              trends "gaming" summary Hrun Hlook) as (_ & Hcount & _).
  exact Hcount.
Defined.

End BySubreddit.

(** ** calculateTrendingScore *)

Section TrendingScore.

Import TrendAnalyzer.
Local Open Scope R_scope.

Lemma Rpower_3_halves x : 0 < x -> Rpower x 1.5 = x * sqrt x.
Proof.
  intros Hx. replace 1.5 with (1 + / 2) by lra.
  rewrite Rpower_plus, Rpower_1, Rpower_sqrt by exact Hx. reflexivity.
Qed.

Lemma sqrt_4 : sqrt 4 = 2.
Proof. replace 4 with (2 * 2) by lra. apply sqrt_square. lra. Qed.

(** The score of a post that is [secs] seconds old. *)
Lemma calculateTrendingScore_aged post secs :
  calculateTrendingScore ((created_utc post + secs) * 1000) post =
  IZR (score post + num_comments post * 2) / Rpower (Rmax 1 (IZR secs / 3600)) 1.5.
Proof.
  unfold calculateTrendingScore, ageInHours. do 3 f_equal.
  rewrite mult_IZR, plus_IZR. field.
Qed.

Lemma example_score_fresh name heading content created :
  calculateTrendingScore (created * 1000)
    (example_post name heading content 100 50 created) = 200.
Proof.
  replace (created * 1000)%Z with ((created + 0) * 1000)%Z by lia.
  refine (eq_trans (calculateTrendingScore_aged
                      (example_post name heading content 100 50 created) 0) _).
  change (IZR (score _ + num_comments _ * 2)) with 200.
  rewrite Rmax_left by lra.
  rewrite Rpower_3_halves by lra. rewrite sqrt_1. lra.
Qed.

Lemma example_score_4_hours name heading content created :
  calculateTrendingScore ((created + 4 * 3600) * 1000)
    (example_post name heading content 100 50 created) = 25.
Proof.
  refine (eq_trans (calculateTrendingScore_aged
                      (example_post name heading content 100 50 created) (4 * 3600)) _).
  change (IZR (score _ + num_comments _ * 2)) with 200.
  change (IZR (4 * 3600)) with 14400.
  replace (14400 / 3600) with 4 by lra.
  rewrite Rmax_right by lra.
  rewrite Rpower_3_halves by lra. rewrite sqrt_4. lra.
Qed.

(** C6: the trending score is (score + 2 * num_comments) divided by
    max(1, age in hours) to the power 1.5, the age being counted from
    [created_utc] to the clock reading; a post with score 100 and 50
    comments scores 200 when it is created at the clock reading, and 25
    when it is created 4 hours before. *)
Theorem calculateTrendingScore_formula :
  (forall now post,
      calculateTrendingScore now post =
      (IZR (score post) + 2 * IZR (num_comments post))
      / Rpower (Rmax 1 ((IZR now / 1000 - IZR (created_utc post)) / 3600)) 1.5)
  /\ (forall name heading content created,
        calculateTrendingScore (created * 1000)
          (example_post name heading content 100 50 created) = 200)
  /\ (forall name heading content created,
        calculateTrendingScore ((created + 4 * 3600) * 1000)
          (example_post name heading content 100 50 created) = 25).
Proof.
  split; [| split].
  - intros now post. unfold calculateTrendingScore, ageInHours.
    rewrite plus_IZR, mult_IZR. f_equal. lra.
  - intros. apply example_score_fresh.
  - intros. apply example_score_4_hours.
Qed.

End TrendingScore.

(** ** Purity *)

Section Purity.

Local Open Scope R_scope.

(** C3 (as stated, refuted): the operations are not all functions of their
    explicit inputs alone. The same post scores 200 when the clock reads
    its time of creation and 25 four hours later. *)
Lemma calculateTrendingScore_depends_on_clock :
  ~ (forall now1 now2 op, perform now1 op = perform now2 op).
Proof.
  intros H.
  specialize (H (0 * 1000)%Z ((0 + 4 * 3600) * 1000)%Z
                (CalculateTrendingScore (example_post "gaming" "A game" "" 100 50 0))).
  simpl perform in H. injection H as H.
  rewrite example_score_fresh, example_score_4_hours in H. lra.
Qed.

(** C3 (amended): extractKeywords, mergeFrequencies, getTopKeywords,
    analyzeTrendingKeywords, analyzeCommentTrends and getTrendsBySubreddit
    return equal outputs for equal inputs whatever the clock reads;
    calculateTrendingScore, getTopTrendingPosts and getEmergingTopics read
    the clock, and each of them returns different outputs for one input
    at two clock readings. *)
Theorem perform_without_clock :
  (forall op, reads_clock op = false ->
              forall now1 now2, perform now1 op = perform now2 op)
  /\ (exists post now1 now2,
        perform now1 (CalculateTrendingScore post)
        <> perform now2 (CalculateTrendingScore post))
  /\ (exists posts limit now1 now2,
        perform now1 (GetTopTrendingPosts posts limit)
        <> perform now2 (GetTopTrendingPosts posts limit))
  /\ (exists posts hoursThreshold now1 now2,
        perform now1 (GetEmergingTopics posts hoursThreshold)
        <> perform now2 (GetEmergingTopics posts hoursThreshold)).
Proof.
  split; [| split; [| split]].
  - intros op. destruct op; simpl; intros Hop now1 now2;
      first [discriminate | reflexivity].
  - exists (example_post "gaming" "A game" "" 100 50 0),
      (0 * 1000)%Z, ((0 + 4 * 3600) * 1000)%Z.
    simpl perform. intros H. injection H as H.
    rewrite example_score_fresh, example_score_4_hours in H. lra.
  - exists [example_post "gaming" "A game" "" 100 50 0], 1%nat,
      (0 * 1000)%Z, ((0 + 4 * 3600) * 1000)%Z.
    unfold perform, TrendAnalyzer.getTopTrendingPosts. simpl map.
    simpl TrendAnalyzer.sort_scored. simpl firstn.
    intros H. injection H as H.
    rewrite example_score_fresh, example_score_4_hours in H. lra.
  - exists [example_post "gaming" "A game of games" "game" 100 50 0], 24%Z,
      0%Z, 1700000000000%Z.
    simpl perform. intros H. injection H as H. vm_compute in H. discriminate.
Qed.

Lemma perform_without_clock_witness :
  perform 0 (ExtractKeywords "The Game is SO GOOD!!") =
  perform 1700000000000 (ExtractKeywords "The Game is SO GOOD!!").
Proof. apply (proj1 perform_without_clock). reflexivity. Defined.

End Purity.

(** ** retryWithBackoff *)

Section Retry.

Import RedditClient.

Context {A : Type}.
Implicit Types (fn : Async A) (c : Client) (error : Error).

Lemma retry_success fn retries delay c a c' :
  fn c = (Returns a, c') ->
  retryWithBackoff fn retries delay c = (Returns a, c').
Proof.
  intros Hfn. destruct retries; simpl; unfold try_catch; now rewrite Hfn.
Qed.

Lemma retry_rate_limit_step fn retries delay c error c' :
  fn c = (Throws error, c') -> is_rate_limit error = true ->
  retryWithBackoff fn (S retries) delay c =
  retryWithBackoff fn retries (delay * 2)%Q (snd (sleep (waitTime error delay) c')).
Proof.
  intros Hfn Hrl. simpl. unfold try_catch at 1. rewrite Hfn, Hrl.
  unfold bind. simpl. destruct retries; reflexivity.
Qed.

Lemma retry_rate_limit_last fn delay c error c' :
  fn c = (Throws error, c') -> is_rate_limit error = true ->
  retryWithBackoff fn 0 delay c = (Throws rate_limit_exceeded, c').
Proof. intros Hfn Hrl. simpl. unfold try_catch. now rewrite Hfn, Hrl. Qed.

(** A call that fails at every attempt fails under the retry layer. *)
Lemma retry_always_fails fn :
  (forall c, exists error c', fn c = (Throws error, c')) ->
  forall retries delay c,
    exists error c', retryWithBackoff fn retries delay c = (Throws error, c').
Proof.
  intros Hfn. induction retries as [|retries IH]; intros delay c;
    destruct (Hfn c) as (error & c' & Hc); simpl; unfold try_catch at 1; rewrite Hc.
  - destruct (is_rate_limit error); unfold throw; eauto.
  - destruct (is_rate_limit error).
    + unfold bind. simpl. apply IH.
    + destruct (is_server_error error); [| unfold throw; eauto].
      unfold bind. simpl. apply IH.
Qed.

(** C2 (amended): when a call fails with a rate-limit signal while retries
    remain, the retry layer waits [ratelimitRemaining * 1000 + 1000]
    milliseconds if the error carries a non-zero [ratelimitRemaining], and
    the current backoff delay otherwise, then makes the next attempt with
    one retry less and twice the delay. *)
Theorem retryWithBackoff_rate_limit fn retries delay c error c' :
  fn c = (Throws error, c') ->
  is_rate_limit error = true ->
  let wait :=
    match ratelimitRemaining error with
    | Some remaining =>
        if remaining =? 0 then delay else inject_Z (remaining * 1000 + 1000)
    | None => delay
    end in
  retryWithBackoff fn (S retries) delay c =
  retryWithBackoff fn retries (delay * 2)%Q
    {| requestCount := requestCount c';
       rateLimitRemaining := rateLimitRemaining c';
       slept := slept c' ++ [wait] |}.
Proof. intros Hfn Hrl. exact (retry_rate_limit_step fn retries delay c error c' Hfn Hrl). Qed.

(** When every attempt fails with a rate-limit signal, the retry layer
    throws its own error once the retries are used up. *)
Lemma retry_exhausted fn :
  (forall c, exists error c', fn c = (Throws error, c') /\ is_rate_limit error = true) ->
  forall retries delay c,
    exists c', retryWithBackoff fn retries delay c = (Throws rate_limit_exceeded, c').
Proof.
  intros Hfn. induction retries as [|retries IH]; intros delay c;
    destruct (Hfn c) as (error & c' & Hc & Hrl).
  - exists c'. now apply (retry_rate_limit_last fn delay c error).
  - rewrite (retry_rate_limit_step fn retries delay c error c' Hc Hrl). apply IH.
Qed.

End Retry.

Section RetryExamples.

Import RedditClient.

(** C2 (as stated, refuted): against an upstream that rejects two requests
    with the hint 1, the retry layer with the default budget and delay
    waits 2000 ms and again 2000 ms; before the second retry the backoff
    delay is 4000 ms, and the specified wait max(1 * 1000 + 1000, 4000) is
    4000 ms. *)
Lemma retryWithBackoff_wait_is_not_max :
  slept (snd (retryWithBackoff (request limited_twice "technology" 50) 3 2000
                fresh_client)) = [2000%Q; 2000%Q]
  /\ ~ (2000 == waitTime_specified 1 (2000 * 2))%Q.
Proof.
  split; [vm_compute; reflexivity |].
  intros H. vm_compute in H. discriminate.
Qed.

Lemma retryWithBackoff_rate_limit_witness :
  retryWithBackoff (request limited_twice "technology" 50) 3 2000 fresh_client =
  retryWithBackoff (request limited_twice "technology" 50) 2 (2000 * 2)%Q
    {| requestCount := 1; rateLimitRemaining := None; slept := [2000%Q] |}.
Proof.
  exact (retryWithBackoff_rate_limit (request limited_twice "technology" 50) 2 2000
           fresh_client (too_many_requests (Some 1))
           {| requestCount := 1; rateLimitRemaining := None; slept := [] |}
           eq_refl eq_refl).
Defined.

End RetryExamples.

(** ** fetchHotPosts *)

Section FetchHotPosts.

Import RedditClient.

Variable getHot : string -> Z -> Z -> outcome (list Submission).
Variable maxRetries : nat.

Lemma enforceRateLimit_returns c : exists c', enforceRateLimit c = (Returns tt, c').
Proof. unfold enforceRateLimit. destruct (approaching_limit _); simpl; eauto. Qed.

Lemma request_returns subreddit limit posts :
  (forall n, getHot subreddit limit n = Returns posts) ->
  forall c, exists c', request getHot subreddit limit c = (Returns posts, c').
Proof.
  intros Hup c. unfold request, bind.
  destruct (enforceRateLimit_returns c) as [c' ->]. rewrite Hup. eauto.
Qed.

Lemma request_throws subreddit limit error :
  (forall n, getHot subreddit limit n = Throws error) ->
  forall c, exists c', request getHot subreddit limit c = (Throws error, c').
Proof.
  intros Hup c. unfold request, bind.
  destruct (enforceRateLimit_returns c) as [c' ->]. rewrite Hup. eauto.
Qed.

Lemma pause_returns (b : bool) c :
  exists c', (if b then sleep 1000 else ret tt) c = (Returns tt, c').
Proof. destruct b; simpl; eauto. Qed.

(** One round of the loop for a subreddit that the upstream answers. *)
Lemma round_returns subreddits limit allPosts subreddit posts :
  (forall n, getHot subreddit limit n = Returns posts) ->
  forall c, exists c',
    try_catch (fetch_subreddit getHot maxRetries subreddits limit allPosts subreddit)
              (fun _ => ret allPosts) c
    = (Returns (allPosts ++ map to_post posts), c').
Proof.
  intros Hup c. unfold try_catch, fetch_subreddit, bind.
  destruct (request_returns subreddit limit posts Hup c) as [c1 Hc1].
  rewrite (retry_success _ maxRetries 2000 c posts c1 Hc1).
  destruct (pause_returns
              (indexOf subreddits subreddit <? Z.of_nat (length subreddits) - 1) c1)
    as [c2 ->].
  simpl. eauto.
Qed.

(** One round of the loop for a subreddit whose every request fails. *)
Lemma round_skips subreddits limit allPosts subreddit :
  (forall n, exists error, getHot subreddit limit n = Throws error) ->
  forall c, exists c',
    try_catch (fetch_subreddit getHot maxRetries subreddits limit allPosts subreddit)
              (fun _ => ret allPosts) c
    = (Returns allPosts, c').
Proof.
  intros Hup c. unfold try_catch, fetch_subreddit, bind.
  destruct (retry_always_fails (request getHot subreddit limit)) with
    (retries := maxRetries) (delay := 2000%Q) (c := c) as (error & c' & ->).
  - intros c0. unfold request, bind.
    destruct (enforceRateLimit_returns c0) as [c1 ->].
    destruct (Hup (requestCount c1)) as [error ->]. eauto.
  - simpl. eauto.
Qed.

(** No round throws. *)
Lemma round_total subreddits limit allPosts subreddit c :
  exists allPosts' c',
    try_catch (fetch_subreddit getHot maxRetries subreddits limit allPosts subreddit)
              (fun _ => ret allPosts) c
    = (Returns allPosts', c').
Proof.
  unfold try_catch.
  destruct (fetch_subreddit _ _ _ _ _ _ c) as [[posts | error] c']; simpl; eauto.
Qed.

Lemma fetch_loop_total subreddits limit rest : forall allPosts c,
  exists posts c',
    fetch_loop getHot maxRetries subreddits rest limit allPosts c = (Returns posts, c').
Proof.
  induction rest as [|subreddit rest IH]; intros allPosts c; simpl.
  - unfold ret. eauto.
  - unfold bind at 1.
    destruct (round_total subreddits limit allPosts subreddit c) as (posts & c' & ->).
    apply IH.
Qed.

(** C7: a batch fetch never throws, whatever the upstream does; and with
    three sources of which the second fails at every request, whatever its
    error, the result holds the posts of the first source followed by
    those of the third. *)
Theorem fetchHotPosts_isolates_failures :
  (forall subreddits limit c,
      exists posts c',
        fetchHotPosts getHot maxRetries subreddits limit c = (Returns posts, c'))
  /\ (forall s1 s2 s3 limit posts1 posts3 error c,
        (forall n, getHot s1 limit n = Returns posts1) ->
        (forall n, getHot s2 limit n = Throws error) ->
        (forall n, getHot s3 limit n = Returns posts3) ->
        fst (fetchHotPosts getHot maxRetries [s1; s2; s3] limit c) =
        Returns (map to_post posts1 ++ map to_post posts3)).
Proof.
  split.
  - intros subreddits limit c. apply fetch_loop_total.
  - intros s1 s2 s3 limit posts1 posts3 error c H1 H2 H3.
    unfold fetchHotPosts. simpl.
    unfold bind at 1.
    destruct (round_returns [s1; s2; s3] limit [] s1 posts1 H1 c) as [c1 ->].
    unfold bind at 1.
    destruct (round_skips [s1; s2; s3] limit ([] ++ map to_post posts1) s2) with (c := c1)
      as [c2 ->]; [intros n; eauto |].
    unfold bind at 1.
    destruct (round_returns [s1; s2; s3] limit ([] ++ map to_post posts1) s3 posts3 H3 c2)
      as [c3 ->].
    reflexivity.
Qed.

(** C8 (amended): when every request is rejected with a rate-limit signal,
    the retry layer throws "Rate limit exceeded. Max retries reached.
    Please try again later." to [fetchHotPosts], whose [catch] for the
    source ends the matter there: the batch returns normally, without the
    posts of that source. *)
Theorem fetchHotPosts_rate_limit_exhausted :
  (forall subreddit limit n,
      exists error, getHot subreddit limit n = Throws error /\ is_rate_limit error = true) ->
  forall subreddits limit c,
    (forall subreddit c0, exists c',
        retryWithBackoff (request getHot subreddit limit) maxRetries 2000 c0 =
        (Throws rate_limit_exceeded, c'))
    /\ exists c', fetchHotPosts getHot maxRetries subreddits limit c = (Returns [], c').
Proof.
  intros Hup subreddits limit c. split.
  - intros subreddit c0. apply retry_exhausted. intros c1.
    unfold request, bind. destruct (enforceRateLimit_returns c1) as [c2 ->].
    destruct (Hup subreddit limit (requestCount c2)) as (error & -> & Hrl). eauto.
  - unfold fetchHotPosts. generalize subreddits at 1 as all.
    intros all. revert c. induction subreddits as [|subreddit rest IH]; intros c; simpl.
    + unfold ret. eauto.
    + unfold bind at 1.
      destruct (round_skips all limit [] subreddit) with (c := c) as [c' ->].
      * intros n. destruct (Hup subreddit limit n) as (error & H & _). eauto.
      * apply IH.
Qed.

End FetchHotPosts.

Section FetchExamples.

Import RedditClient.

(** C8 (as stated, refuted): against an upstream that rejects every
    request, the retry layer gives up with its error, and the batch fetch
    returns the empty list: no error reaches the caller of the batch. *)
Lemma fetchHotPosts_swallows_rate_limit :
  fst (retryWithBackoff (request always_limited "technology" 50) 3 2000 fresh_client)
  = Throws rate_limit_exceeded
  /\ fst (fetchHotPosts always_limited 3 ["technology"] 50 fresh_client) = Returns []
  /\ forall error,
       fst (fetchHotPosts always_limited 3 ["technology"] 50 fresh_client) <> Throws error.
Proof.
  split; [vm_compute; reflexivity |].
  assert (H : fst (fetchHotPosts always_limited 3 ["technology"] 50 fresh_client)
              = Returns []) by (vm_compute; reflexivity).
  split; [exact H |]. intros error. rewrite H. discriminate.
Qed.

Lemma fetchHotPosts_isolates_failures_witness :
  fst (fetchHotPosts gaming_not_found 3 ["technology"; "gaming"; "movies"] 50
         fresh_client)
  = Returns [to_post (example_submission "technology" "A post");
             to_post (example_submission "movies" "A post")].
Proof.
  apply (proj2 (fetchHotPosts_isolates_failures gaming_not_found 3)
           "technology" "gaming" "movies" 50
           [example_submission "technology" "A post"]
           [example_submission "movies" "A post"] not_found fresh_client);
    intros n; reflexivity.
Defined.

Lemma fetchHotPosts_rate_limit_exhausted_witness :
  exists c', fetchHotPosts always_limited 3 ["technology"; "gaming"] 50 fresh_client
             = (Returns [], c').
Proof.
  apply (fetchHotPosts_rate_limit_exhausted always_limited 3).
  intros subreddit limit n. exists (too_many_requests (Some 1)).
  split; reflexivity.
Defined.

End FetchExamples.

(** * Further properties of the trend analyzer *)

(** ** Counting and merging *)

Section Counting.

Import TrendAnalyzer.

Lemma binds_count_in o k n : binds o k n -> count_in o k = n.
Proof.
  unfold count_in. intros [[-> ->] | [_ ->]]; reflexivity.
Qed.

Lemma counts_binds o k : counts o -> plain k -> binds o k (count_in o k).
Proof.
  intros Ho Hk. unfold binds, count_in.
  destruct (Js.own o k) as [v|] eqn:E; [| left; auto].
  destruct (Ho k v Hk E) as (n & -> & Hn). right. auto.
Qed.

(** Adding the count [c] under the name [x] changes the binding of [x]
    only. *)
Lemma binds_add o x c k n :
  binds o k n -> plain k -> 1 <= c ->
  binds (Js.set o x (Js.add (Js.or (Js.get o x) (Js.JNum 0)) (Js.JNum c))) k
        (if String.eqb x k then n + c else n).
Proof.
  intros Hb Hk Hc. unfold binds. rewrite own_set.
  destruct (String.eqb x k) eqn:E.
  - apply String.eqb_eq in E. subst x.
    destruct Hk as [Hp Hm]. apply String.eqb_neq in Hp. rewrite Hp.
    right. split; [destruct Hb as [[-> _] | [Hn _]]; lia |].
    f_equal. unfold Js.get.
    destruct Hb as [[-> ->] | [Hn ->]].
    + rewrite Hp, Hm. reflexivity.
    + unfold Js.or, Js.truthy. destruct (n =? 0) eqn:E0; [lia |]. reflexivity.
  - destruct (String.eqb x "__proto__"); exact Hb.
Qed.

Lemma binds_fold_count ws : forall o k n,
  binds o k n -> plain k ->
  binds (fold_left count_word ws o) k (n + Z.of_nat (count_occ string_dec ws k)).
Proof.
  induction ws as [|w ws IH]; simpl; intros o k n Hb Hk.
  - now rewrite Z.add_0_r.
  - pose proof (binds_add o w 1 k n Hb Hk ltac:(lia)) as Hstep.
    apply (IH _ k) in Hstep; [| exact Hk].
    destruct (string_dec w k) as [-> | Hne].
    + rewrite String.eqb_refl in Hstep.
      replace (n + Z.of_nat (S (count_occ string_dec ws k)))
        with (n + 1 + Z.of_nat (count_occ string_dec ws k)) by lia.
      exact Hstep.
    + apply String.eqb_neq in Hne. rewrite Hne in Hstep. exact Hstep.
Qed.

Lemma extractKeywords_binds text w :
  w <> "constructor" -> w <> "__proto__" ->
  binds (extractKeywords text) w
        (Z.of_nat (count_occ string_dec (words_of text) w)).
Proof.
  intros Hc Hp.
  destruct (in_dec string_dec w (words_of text)) as [Hin | Hout].
  - apply (binds_fold_count (words_of text) [] w 0).
    + left. auto.
    + now apply (plain_word text).
  - rewrite (proj1 (count_occ_not_In string_dec _ _) Hout). left.
    split; [reflexivity |].
    destruct (Js.own (extractKeywords text) w) as [v|] eqn:E; [| reflexivity].
    exfalso. apply Hout. apply keys_extractKeywords. apply own_keys. eauto.
Qed.

(** X1: the frequency map of a text binds every word, other than
    [constructor] and [__proto__], to the number of its occurrences among
    the words of the text, and binds no name that does not occur. *)
Theorem extractKeywords_counts_occurrences text w :
  w <> "constructor" -> w <> "__proto__" ->
  binds (extractKeywords text) w
        (Z.of_nat (count_occ string_dec (words_of text) w)).
Proof. apply extractKeywords_binds. Qed.

Lemma extractKeywords_counts_occurrences_witness :
  binds (extractKeywords "Game after game: the GAME!") "game" 3.
Proof.
  apply (extractKeywords_counts_occurrences "Game after game: the GAME!" "game");
    discriminate.
Defined.

(** The weight of a name among entries: the sum of the counts bound to
    it. *)
Lemma binds_merge_entry o x v k n :
  binds o k n -> plain k -> (plain x -> is_count v) ->
  binds (merge_entry o (x, v)) k
        (if String.eqb x k then n + count_in [(x, v)] k else n).
Proof.
  intros Hb Hk Hv. unfold merge_entry.
  destruct (String.eqb x k) eqn:E.
  - apply String.eqb_eq in E. subst x. destruct (Hv Hk) as (c & -> & Hc).
    pose proof (binds_add o k c k n Hb Hk Hc) as H.
    rewrite String.eqb_refl in H. unfold count_in. simpl.
    rewrite String.eqb_refl. exact H.
  - unfold binds. rewrite own_set, E.
    destruct (String.eqb x "__proto__"); exact Hb.
Qed.

Lemma count_in_cons x v map k :
  count_in ((x, v) :: map) k =
  if String.eqb x k then count_in [(x, v)] k else count_in map k.
Proof. unfold count_in. simpl. destruct (String.eqb x k); reflexivity. Qed.

Lemma binds_merge_map map : forall o k n,
  binds o k n -> plain k -> frequency_map map ->
  binds (fold_left merge_entry map o) k (n + count_in map k).
Proof.
  induction map as [|[x v] map IH]; intros o k n Hb Hk [Hnd Hc].
  - simpl. unfold count_in. simpl. now rewrite Z.add_0_r.
  - simpl. simpl in Hnd. apply NoDup_cons_iff in Hnd as [Hx Hnd].
    assert (Hv : plain x -> is_count v).
    { intros Hpx. apply (Hc x v Hpx). simpl. now rewrite String.eqb_refl. }
    assert (Hmap : frequency_map map).
    { split; [exact Hnd |]. intros k' v' Hk' Hown.
      apply (Hc k' v' Hk'). simpl.
      destruct (String.eqb x k') eqn:E; [| exact Hown].
      apply String.eqb_eq in E. subst k'. exfalso. apply Hx.
      apply own_keys. eauto. }
    pose proof (binds_merge_entry o x v k n Hb Hk Hv) as Hstep.
    apply (IH _ k) in Hstep; [| exact Hk | exact Hmap].
    rewrite count_in_cons.
    destruct (String.eqb x k) eqn:E.
    + apply String.eqb_eq in E. subst x.
      assert (Hnone : count_in map k = 0).
      { unfold count_in. destruct (Js.own map k) as [v'|] eqn:E'; [| reflexivity].
        exfalso. apply Hx. apply own_keys. eauto. }
      rewrite Hnone, Z.add_0_r in Hstep. exact Hstep.
    + exact Hstep.
Qed.

Lemma frequency_map_of_entries o :
  List.NoDup (Js.keys o) -> (forall k v, In (k, v) o -> is_count v) ->
  frequency_map o.
Proof.
  intros Hnd Hv. split; [exact Hnd |].
  intros k v _ Hown. apply (Hv k v). now apply own_entry.
Qed.

Lemma mergeFrequencies_binds maps k :
  List.Forall frequency_map maps -> plain k ->
  binds (mergeFrequencies maps) k (sum_Z (map (fun m => count_in m k) maps)).
Proof.
  intros Hmaps Hk. unfold mergeFrequencies.
  assert (H : forall o n, binds o k n ->
      binds (fold_left (fun merged map => fold_left merge_entry map merged) maps o) k
            (n + sum_Z (map (fun m => count_in m k) maps))).
  { induction maps as [|m maps IH]; simpl; intros o n Hb.
    - now rewrite Z.add_0_r.
    - apply Forall_cons_iff in Hmaps as [Hm Hmaps].
      rewrite Z.add_assoc. apply IH; [exact Hmaps |].
      now apply binds_merge_map. }
  apply (H [] 0). left. auto.
Qed.

(** X2: merging adds: a name other than those that an empty object
    inherits is bound, in the merge of frequency maps, to the sum of the
    counts that the maps bind to it, and is not bound when no map binds
    it. *)
Theorem mergeFrequencies_adds maps k :
  List.Forall frequency_map maps -> plain k ->
  binds (mergeFrequencies maps) k (sum_Z (map (fun m => count_in m k) maps)).
Proof. apply mergeFrequencies_binds. Qed.

Lemma mergeFrequencies_adds_witness :
  binds (mergeFrequencies [[("alpha", Js.JNum 1)];
                           [("alpha", Js.JNum 2); ("beta", Js.JNum 1)]]) "alpha" 3.
Proof.
  apply (mergeFrequencies_adds
           [[("alpha", Js.JNum 1)]; [("alpha", Js.JNum 2); ("beta", Js.JNum 1)]]
           "alpha").
  - repeat (apply List.Forall_cons || apply List.Forall_nil);
      apply frequency_map_of_entries;
      try (repeat constructor; simpl; intuition discriminate);
      intros k v H; simpl in H;
      repeat (destruct H as [[= <- <-] | H]; [eexists; split; [reflexivity | lia] |]);
      contradiction.
  - split; [discriminate | reflexivity].
Defined.

End Counting.

(** ** Rankings *)

Section Rankings.

Import TrendAnalyzer.

Let before (a b : string * Js.value) : Prop := number_of (snd b) <= number_of (snd a).

Lemma gt_numbers a b : Js.gt (Js.JNum a) (Js.JNum b) = (b <? a).
Proof. reflexivity. Qed.

Lemma insert_entry_perm x l : Permutation (insert_entry x l) (x :: l).
Proof.
  induction l as [|y l IH]; simpl; [reflexivity |].
  destruct (Js.gt (snd y) (snd x)); [| reflexivity].
  rewrite IH. apply perm_swap.
Qed.

Lemma sort_entries_perm l : Permutation (sort_entries l) l.
Proof.
  induction l as [|x l IH]; simpl; [reflexivity |].
  rewrite insert_entry_perm. now constructor.
Qed.

Lemma numeric_sort l : numeric l -> numeric (sort_entries l).
Proof.
  intros Hl k v Hin. apply (Hl k v). now apply sort_entries_In.
Qed.

Lemma insert_entry_sorted x l :
  (exists n, snd x = Js.JNum n) -> numeric l ->
  StronglySorted before l -> StronglySorted before (insert_entry x l).
Proof.
  intros [n Hx] Hl Hs. induction l as [|y l IH]; simpl.
  - constructor; constructor.
  - destruct y as [k v]. destruct (Hl k v (or_introl eq_refl)) as [m ->].
    apply StronglySorted_inv in Hs as [Hs Hy].
    assert (Hl' : numeric l) by (intros k' v' H; apply (Hl k' v'); now right).
    simpl. rewrite Hx, gt_numbers. destruct (n <? m) eqn:E.
    + apply Z.ltb_lt in E. constructor; [now apply IH |].
      apply List.Forall_forall. intros e He. apply insert_entry_In in He as [-> | He].
      * unfold before. simpl. rewrite Hx. simpl. lia.
      * exact (proj1 (List.Forall_forall _ _) Hy e He).
    + apply Z.ltb_ge in E. constructor; [constructor; assumption |].
      constructor; [unfold before; simpl; rewrite Hx; simpl; lia |].
      apply List.Forall_forall. intros e He.
      pose proof (proj1 (List.Forall_forall _ _) Hy e He) as H.
      unfold before in *. simpl in *. rewrite Hx. simpl. lia.
Qed.

Lemma sort_entries_sorted l : numeric l -> StronglySorted before (sort_entries l).
Proof.
  induction l as [|[k v] l IH]; simpl; intros Hl; [constructor |].
  assert (Hl' : numeric l) by (intros k' v' H; apply (Hl k' v'); now right).
  apply insert_entry_sorted; [apply (Hl k v); now left | now apply numeric_sort | now apply IH].
Qed.

(** The sort is stable: an entry moves past strictly larger counts only. *)
Lemma insert_entry_stable n x l :
  List.filter (fun e => number_of (snd e) =? n) (insert_entry x l) =
  List.filter (fun e => number_of (snd e) =? n) (x :: l).
Proof.
  induction l as [|y l IH]; [reflexivity |].
  simpl insert_entry. destruct (Js.gt (snd y) (snd x)) eqn:E; [| reflexivity].
  assert (Hlt : number_of (snd x) < number_of (snd y)).
  { unfold Js.gt in E. destruct (snd y), (snd x); simpl in E; try discriminate.
    simpl. now apply Z.ltb_lt. }
  simpl List.filter at 1. rewrite IH. simpl.
  destruct (number_of (snd x) =? n) eqn:Ex; destruct (number_of (snd y) =? n) eqn:Ey;
    try reflexivity.
  apply Z.eqb_eq in Ex, Ey. lia.
Qed.

Lemma sort_entries_stable n l :
  List.filter (fun e => number_of (snd e) =? n) (sort_entries l) =
  List.filter (fun e => number_of (snd e) =? n) l.
Proof.
  induction l as [|x l IH]; [reflexivity |].
  simpl sort_entries. rewrite insert_entry_stable. simpl. now rewrite IH.
Qed.

Lemma StronglySorted_map {X Y} (f : X -> Y) (R : Y -> Y -> Prop) l :
  StronglySorted (fun a b => R (f a) (f b)) l -> StronglySorted R (map f l).
Proof.
  induction 1 as [|x l Hs IH Hx]; simpl; constructor; [exact IH |].
  apply List.Forall_forall. intros y Hy. apply in_map_iff in Hy as (z & <- & Hz).
  exact (proj1 (List.Forall_forall _ _) Hx z Hz).
Qed.

Lemma in_firstn {X} (x : X) n l : In x (firstn n l) -> In x l.
Proof.
  intros H. rewrite <- (firstn_skipn n l). apply in_or_app. now left.
Qed.

Lemma StronglySorted_firstn {X} (R : X -> X -> Prop) n : forall l,
  StronglySorted R l -> StronglySorted R (firstn n l).
Proof.
  induction n as [|n IH]; intros l Hs; [constructor |].
  destruct l as [|x l]; [constructor |]. simpl.
  apply StronglySorted_inv in Hs as [Hs Hx]. constructor; [now apply IH |].
  apply List.Forall_forall. intros y Hy.
  apply (proj1 (List.Forall_forall _ _) Hx y). now apply (in_firstn y n l).
Qed.

Lemma filter_map_entry n l :
  with_count n (map to_entry l) =
  map to_entry (List.filter (fun e => number_of (snd e) =? n) l).
Proof.
  unfold with_count. induction l as [|x l IH]; simpl; [reflexivity |].
  destruct (number_of (snd x) =? n); simpl; now rewrite IH.
Qed.

(** X3: [getTopKeywords] on counts is a stable descending sort cut at
    [limit]: the full ranking is a rearrangement of the entries of the
    object, no entry has a larger count than one before it, the entries of
    equal count stay in the order of the object, and the result is the
    first [limit] entries of the full ranking. *)
Theorem getTopKeywords_ranking frequencies limit :
  numeric frequencies ->
  let ranking := getTopKeywords frequencies (length frequencies) in
  getTopKeywords frequencies limit = firstn limit ranking
  /\ Permutation ranking (map to_entry frequencies)
  /\ descending ranking
  /\ forall n, with_count n ranking = with_count n (map to_entry frequencies).
Proof.
  intros Hnum ranking.
  assert (Hfull : ranking = map to_entry (sort_entries frequencies)).
  { unfold ranking, getTopKeywords. rewrite firstn_all2; [reflexivity |].
    now rewrite sort_entries_length. }
  rewrite Hfull. repeat split.
  - unfold getTopKeywords. now rewrite firstn_map.
  - apply Permutation_map, sort_entries_perm.
  - apply StronglySorted_map. exact (sort_entries_sorted frequencies Hnum).
  - intros n. rewrite !filter_map_entry. now rewrite sort_entries_stable.
Qed.

Lemma getTopKeywords_ranking_witness :
  getTopKeywords [("xray", Js.JNum 5); ("zulu", Js.JNum 7); ("yankee", Js.JNum 5)] 2
  = [ {| keyword := "zulu"; count := Js.JNum 7 |};
      {| keyword := "xray"; count := Js.JNum 5 |} ].
Proof.
  assert (Hnum : numeric [("xray", Js.JNum 5); ("zulu", Js.JNum 7);
                          ("yankee", Js.JNum 5)]).
  { intros k v H. simpl in H.
    repeat (destruct H as [[= <- <-] | H]; [eauto |]). contradiction. }
  destruct (getTopKeywords_ranking _ 2 Hnum) as (Hcut & _).
  rewrite Hcut. reflexivity.
Defined.

Lemma rebuild_entries l : forall acc k v,
  In (k, v) (fold_left (fun acc '(word, count) => Js.set acc word count) l acc) ->
  In (k, v) acc \/ In (k, v) l.
Proof.
  induction l as [|[w c] l IH]; simpl; intros acc k v Hin; [auto |].
  apply IH in Hin as [Hin | Hin]; [| auto].
  unfold Js.set in Hin. destruct (String.eqb w "__proto__"); [auto |].
  apply put_entries in Hin as [[-> ->] | Hin]; auto.
Qed.

Lemma filter_frequent_entries merged minFrequency k v :
  In (k, v) (filter_frequent merged minFrequency) ->
  In (k, v) merged /\ exists n, v = Js.JNum n /\ minFrequency <= n.
Proof.
  intros Hin. unfold filter_frequent in Hin.
  apply rebuild_entries in Hin as [[] | Hin].
  apply filter_In in Hin as [Hin Hge]. split; [exact Hin |].
  unfold Js.ge in Hge. destruct v; simpl in Hge; try discriminate.
  eexists. split; [reflexivity |]. now apply Z.leb_le.
Qed.

Lemma NoDup_firstn_keep {X} n : forall l : list X,
  List.NoDup l -> List.NoDup (firstn n l).
Proof.
  induction n as [|n IH]; intros l Hl; [constructor |].
  destruct l as [|x l]; [constructor |]. simpl.
  apply NoDup_cons_iff in Hl as [Hx Hl]. constructor; [| now apply IH].
  intros H. apply Hx. now apply (in_firstn x n l).
Qed.

(** The ranking of the frequent entries of any object. *)
Lemma top_frequent_ranking merged minFrequency :
  frequent_ranking minFrequency
    (getTopKeywords (filter_frequent merged minFrequency) 30).
Proof.
  set (filtered := filter_frequent merged minFrequency).
  assert (Hnum : numeric filtered).
  { intros k v Hin. apply filter_frequent_entries in Hin as (_ & n & -> & _). eauto. }
  assert (Hnd : List.NoDup (Js.keys filtered)).
  { unfold filtered, filter_frequent.
    apply (rebuild_spec _ [] (List.NoDup_nil _)). }
  unfold frequent_ranking, getTopKeywords. repeat split.
  - rewrite length_map. apply firstn_le_length.
  - apply StronglySorted_map, StronglySorted_firstn.
    exact (sort_entries_sorted filtered Hnum).
  - rewrite map_map. simpl. rewrite <- firstn_map. apply NoDup_firstn_keep.
    apply (Permutation_NoDup (l := Js.keys filtered)); [| exact Hnd].
    symmetry. apply Permutation_map, sort_entries_perm.
  - apply List.Forall_forall. intros e He.
    apply in_map_iff in He as ([k v] & <- & He). apply in_firstn in He.
    apply (proj1 (sort_entries_In _ _)) in He.
    apply filter_frequent_entries in He as (_ & n & -> & Hn). simpl. eauto.
Qed.

(** X4: whatever the posts, the comments and the threshold, both analyses
    return at most 30 entries, in descending order of count, no keyword
    twice, and every count is a number that is at least the threshold. *)
Theorem analyses_are_frequent_rankings minFrequency :
  (forall posts, frequent_ranking minFrequency
                   (analyzeTrendingKeywords posts minFrequency))
  /\ (forall comments, frequent_ranking minFrequency
                         (analyzeCommentTrends comments minFrequency)).
Proof. split; intros; apply top_frequent_ranking. Qed.

End Rankings.

(** ** Emerging topics *)

Section Emerging.

Import TrendAnalyzer.

Lemma is_recent_in_window now hoursThreshold post :
  is_recent now hoursThreshold post = in_window now hoursThreshold post.
Proof.
  unfold is_recent, in_window, cutoffTime.
  destruct (Qle_bool _ _) eqn:E; simpl; symmetry.
  - apply Qle_bool_iff in E. apply Z.ltb_ge.
    unfold Qle, Qminus, Qplus, Qdiv, Qmult, Qinv, Qopp, inject_Z in E.
    simpl in E. lia.
  - apply Z.ltb_lt. apply Z.nle_gt. intros H.
    assert (E' : Qle_bool (inject_Z (created_utc post))
                   (inject_Z now / 1000 - inject_Z (hoursThreshold * 3600)) = true).
    { apply Qle_bool_iff.
      unfold Qle, Qminus, Qplus, Qdiv, Qmult, Qinv, Qopp, inject_Z. simpl. lia. }
    rewrite E' in E. discriminate.
Qed.

Lemma filter_ext_eq {X} (f g : X -> bool) l :
  (forall x, f x = g x) -> List.filter f l = List.filter g l.
Proof.
  intros H. induction l as [|x l IH]; simpl; [reflexivity |].
  now rewrite H, IH.
Qed.

(** X5: the emerging topics are the first 15 entries of the analysis, with
    the threshold 2, of the posts created inside the window; the posts
    outside the window have no influence, and when no post is inside the
    result is empty. *)
Theorem getEmergingTopics_window now posts hoursThreshold :
  getEmergingTopics now posts hoursThreshold =
    firstn 15 (analyzeTrendingKeywords
                 (List.filter (in_window now hoursThreshold) posts) 2)
  /\ (length (getEmergingTopics now posts hoursThreshold) <= 15)%nat
  /\ (List.Forall (fun p => created_utc p * 1000 <= now - hoursThreshold * 3600000)
                  posts ->
      getEmergingTopics now posts hoursThreshold = []).
Proof.
  assert (Heq : getEmergingTopics now posts hoursThreshold =
                firstn 15 (analyzeTrendingKeywords
                             (List.filter (in_window now hoursThreshold) posts) 2)).
  { unfold getEmergingTopics.
    rewrite (filter_ext_eq _ (in_window now hoursThreshold) posts
               (is_recent_in_window now hoursThreshold)).
    destruct (List.filter _ posts); reflexivity. }
  split; [exact Heq |]. split.
  - rewrite Heq. apply firstn_le_length.
  - intros Hold. rewrite Heq. clear Heq.
    replace (List.filter (in_window now hoursThreshold) posts) with (@nil Post);
      [reflexivity |].
    symmetry. induction Hold as [|p l Hp Hl IH]; simpl; [reflexivity |].
    unfold in_window at 1. destruct (_ <? _) eqn:E; [| exact IH].
    apply Z.ltb_lt in E. lia.
Qed.

Lemma getEmergingTopics_window_witness :
  getEmergingTopics 1700000000000
    [example_post "gaming" "An old game" "" 5 1 1600000000] 24 = [].
Proof.
  apply (getEmergingTopics_window 1700000000000
           [example_post "gaming" "An old game" "" 5 1 1600000000] 24).
  repeat constructor. simpl. lia.
Defined.

End Emerging.

(** ** Trending scores *)

Section Trending.

Import TrendAnalyzer.
Local Open Scope R_scope.

Lemma ageFactor_power_lower x : 1 <= Rpower (Rmax 1 x) 1.5.
Proof.
  assert (H1 : Rpower 1 1.5 = 1) by (rewrite Rpower_3_halves, sqrt_1; lra).
  rewrite <- H1 at 1. apply Rle_Rpower_l; [lra |].
  split; [lra | apply Rmax_l].
Qed.

Lemma ageFactor_power_mono x y :
  x <= y -> Rpower (Rmax 1 x) 1.5 <= Rpower (Rmax 1 y) 1.5.
Proof.
  intros H. apply Rle_Rpower_l; [lra |].
  split; [pose proof (Rmax_l 1 x); lra |].
  apply Rmax_case_strong; intros; apply Rmax_case_strong; intros; lra.
Qed.

Lemma score_is_engagement_over_power now post :
  calculateTrendingScore now post =
  IZR (engagement post) / Rpower (Rmax 1 (ageInHours now post)) 1.5.
Proof. reflexivity. Qed.

(** X6: a post that is at most one hour old scores exactly its engagement;
    and for a post whose engagement is not negative, the score at a later
    clock reading is never higher than at an earlier one, and stays
    between 0 and the engagement. *)
Theorem calculateTrendingScore_decay post :
  (forall now, (now <= (created_utc post + 3600) * 1000)%Z ->
               calculateTrendingScore now post = IZR (engagement post))
  /\ ((0 <= engagement post)%Z ->
      forall now1 now2, (now1 <= now2)%Z ->
        0 <= calculateTrendingScore now2 post
        /\ calculateTrendingScore now2 post <= calculateTrendingScore now1 post
        /\ calculateTrendingScore now1 post <= IZR (engagement post)).
Proof.
  split.
  - intros now Hnow. rewrite score_is_engagement_over_power.
    assert (Hage : ageInHours now post <= 1).
    { unfold ageInHours. apply IZR_le in Hnow.
      rewrite mult_IZR, plus_IZR in Hnow. lra. }
    rewrite Rmax_left by exact Hage.
    rewrite Rpower_3_halves, sqrt_1 by lra. field.
  - intros He now1 now2 Hnow. rewrite !score_is_engagement_over_power.
    apply IZR_le in He. apply IZR_le in Hnow.
    assert (Hage : ageInHours now1 post <= ageInHours now2 post).
    { unfold ageInHours. lra. }
    pose proof (ageFactor_power_lower (ageInHours now1 post)) as H1.
    pose proof (ageFactor_power_lower (ageInHours now2 post)) as H2.
    pose proof (ageFactor_power_mono _ _ Hage) as H12.
    set (e := IZR (engagement post)) in *.
    set (p1 := Rpower (Rmax 1 (ageInHours now1 post)) 1.5) in *.
    set (p2 := Rpower (Rmax 1 (ageInHours now2 post)) 1.5) in *.
    assert (Hi1 : 0 < / p1 <= 1).
    { split; [apply Rinv_0_lt_compat; lra |].
      rewrite <- Rinv_1. apply Rinv_le_contravar; lra. }
    assert (Hi2 : 0 < / p2 <= / p1).
    { split; [apply Rinv_0_lt_compat; lra |]. apply Rinv_le_contravar; lra. }
    unfold Rdiv. repeat split; nra.
Qed.

Lemma calculateTrendingScore_decay_witness :
  calculateTrendingScore 7200000 (example_post "gaming" "A game" "" 100 50 0)
  <= calculateTrendingScore 3600000 (example_post "gaming" "A game" "" 100 50 0).
Proof.
  apply (proj2 (calculateTrendingScore_decay
                  (example_post "gaming" "A game" "" 100 50 0))).
  - vm_compute. discriminate.
  - vm_compute. discriminate.
Defined.

(** The sort of the scored posts. *)
Lemma insert_scored_In p x l : In p (insert_scored x l) <-> p = x \/ In p l.
Proof.
  induction l as [|y l IH]; simpl.
  - split; [intros [<- | []]; auto | intros [-> | []]; auto].
  - destruct (Rlt_dec _ _); simpl; rewrite ?IH; intuition congruence.
Qed.

Lemma insert_scored_perm x l : Permutation (insert_scored x l) (x :: l).
Proof.
  induction l as [|y l IH]; simpl; [reflexivity |].
  destruct (Rlt_dec _ _); [| reflexivity].
  rewrite IH. apply perm_swap.
Qed.

Lemma sort_scored_perm l : Permutation (sort_scored l) l.
Proof.
  induction l as [|x l IH]; simpl; [reflexivity |].
  rewrite insert_scored_perm. now constructor.
Qed.

Lemma insert_scored_sorted x l :
  by_falling_score l -> by_falling_score (insert_scored x l).
Proof.
  unfold by_falling_score. intros Hs. induction l as [|y l IH]; simpl.
  - constructor; constructor.
  - apply StronglySorted_inv in Hs as [Hs Hy].
    destruct (Rlt_dec (trendingScore x) (trendingScore y)) as [Hlt | Hge].
    + constructor; [now apply IH |].
      apply List.Forall_forall. intros e He. apply insert_scored_In in He as [-> | He].
      * lra.
      * exact (proj1 (List.Forall_forall _ _) Hy e He).
    + constructor; [constructor; assumption |].
      constructor; [lra |].
      apply List.Forall_forall. intros e He.
      pose proof (proj1 (List.Forall_forall _ _) Hy e He) as H. simpl in H. lra.
Qed.

Lemma sort_scored_sorted l : by_falling_score (sort_scored l).
Proof.
  induction l as [|x l IH]; simpl; [constructor |].
  now apply insert_scored_sorted.
Qed.

(** X7: the top trending posts are the first [limit] entries of the full
    ranking, which holds every post once with its trending score at the
    clock reading, in falling order of score. *)
Theorem getTopTrendingPosts_ranking now posts limit :
  let ranking := getTopTrendingPosts now posts (length posts) in
  getTopTrendingPosts now posts limit = firstn limit ranking
  /\ Permutation ranking (map (with_score now) posts)
  /\ by_falling_score ranking
  /\ length (getTopTrendingPosts now posts limit) = Nat.min limit (length posts).
Proof.
  intros ranking.
  assert (Hfull : ranking = sort_scored (map (with_score now) posts)).
  { unfold ranking, getTopTrendingPosts. apply firstn_all2.
    rewrite (Permutation_length (sort_scored_perm _)), length_map. lia. }
  rewrite Hfull. repeat split.
  - apply sort_scored_perm.
  - apply sort_scored_sorted.
  - unfold getTopTrendingPosts. rewrite length_firstn.
    rewrite (Permutation_length (sort_scored_perm _)), length_map. reflexivity.
Qed.

End Trending.

(** ** The groups of getTrendsBySubreddit *)

Section Groups.

Import TrendAnalyzer.

Lemma plain_dec k : {plain k} + {~ plain k}.
Proof.
  unfold plain. destruct (string_dec k "__proto__") as [-> | Hne].
  - right. intros [H _]. now apply H.
  - destruct (Js.is_prototype_method k) eqn:E.
    + right. intros [_ H]. discriminate.
    + left. auto.
Qed.

(** The grouping stops with the error of [push] at the first post whose
    subreddit is a name that an empty object inherits. *)
Lemma group_posts_outcome posts : forall bySubreddit,
  (forall name, is_Some (bySubreddit !! name) -> plain name) ->
  match group_posts bySubreddit posts with
  | Returns _ => List.Forall (fun p => plain (subreddit p)) posts
  | Throws e =>
      e = push_is_not_a_function
      /\ List.Exists (fun p => ~ plain (subreddit p)) posts
  end.
Proof.
  induction posts as [|post posts IH]; simpl; intros m Hm; [constructor |].
  unfold group_post.
  destruct (m !! subreddit post) as [subPosts|] eqn:E.
  - assert (Hp : plain (subreddit post)) by (apply Hm; rewrite E; eauto).
    specialize (IH (<[subreddit post := subPosts ++ [post]]> m)).
    destruct (group_posts _ posts).
    + constructor; [exact Hp |]. apply IH.
      intros name [l Hl]. destruct (string_dec (subreddit post) name) as [<- | Hne];
        [exact Hp |]. rewrite lookup_insert_ne in Hl by exact Hne. apply Hm. eauto.
    + destruct IH as [-> Hex].
      * intros name [l Hl]. destruct (string_dec (subreddit post) name) as [<- | Hne];
          [exact Hp |]. rewrite lookup_insert_ne in Hl by exact Hne. apply Hm. eauto.
      * split; [reflexivity | now apply List.Exists_cons_tl].
  - destruct (plain_dec (subreddit post)) as [Hp | Hnp].
    + destruct Hp as [Hp1 Hp2]. pose proof Hp1 as Hp1'.
      apply String.eqb_neq in Hp1'. rewrite Hp1', Hp2. simpl.
      specialize (IH (<[subreddit post := [post]]> m)).
      assert (Hm' : forall name,
                 is_Some (<[subreddit post := [post]]> m !! name) -> plain name).
      { intros name [l Hl].
        destruct (string_dec (subreddit post) name) as [<- | Hne]; [split; assumption |].
        rewrite lookup_insert_ne in Hl by exact Hne. apply Hm. eauto. }
      destruct (group_posts _ posts).
      * constructor; [split; assumption | now apply IH].
      * destruct (IH Hm') as [-> Hex].
        split; [reflexivity | now apply List.Exists_cons_tl].
    + assert (Hthrow : String.eqb (subreddit post) "__proto__"
                       || Js.is_prototype_method (subreddit post) = true).
      { destruct (String.eqb (subreddit post) "__proto__") eqn:E1; [reflexivity |].
        destruct (Js.is_prototype_method (subreddit post)) eqn:E2; [reflexivity |].
        exfalso. apply Hnp. split; [now apply String.eqb_neq | exact E2]. }
      rewrite Hthrow. split; [reflexivity |]. now apply List.Exists_cons_hd.
Qed.

(** X8: [getTrendsBySubreddit] throws, with the error of calling [push]
    on an inherited property, exactly when some post belongs to a
    subreddit whose name an empty object inherits ([constructor],
    [toString], [__proto__], ...); when it returns, a name has a summary
    exactly when some post belongs to it. *)
Theorem getTrendsBySubreddit_outcome posts :
  ((exists e, getTrendsBySubreddit posts = Throws e)
   <-> List.Exists (fun p => ~ plain (subreddit p)) posts)
  /\ (forall e, getTrendsBySubreddit posts = Throws e -> e = push_is_not_a_function)
  /\ (forall trends name,
        getTrendsBySubreddit posts = Returns trends ->
        (is_Some (trends !! name) <-> exists p, In p posts /\ subreddit p = name)).
Proof.
  unfold getTrendsBySubreddit.
  pose proof (group_posts_outcome posts ∅) as Hout.
  assert (Hempty : forall name, is_Some ((∅ : gmap string (list Post)) !! name) ->
                                plain name).
  { intros name [l Hl]. rewrite lookup_empty in Hl. discriminate. }
  specialize (Hout Hempty).
  destruct (group_posts ∅ posts) as [m|e] eqn:E.
  - split; [| split].
    + split; [intros [e He]; discriminate |].
      intros Hex. exfalso. apply List.Exists_exists in Hex as (p & Hp & Hnp).
      apply Hnp. exact (proj1 (List.Forall_forall _ _) Hout p Hp).
    + intros e He. discriminate.
    + intros trends name Hrun. injection Hrun as <-.
      pose proof (group_posts_grouped posts [] ∅ m grouped_empty E name) as Hg.
      simpl in Hg. rewrite lookup_fmap, Hg. unfold posts_of. split.
      * intros [summary Hs].
        destruct (List.filter _ posts) as [|p l] eqn:Hf; [discriminate |].
        assert (Hin : In p (List.filter
                              (fun p => String.eqb (subreddit p) name) posts))
          by (rewrite Hf; now left).
        apply filter_In in Hin as [Hin Hname]. apply String.eqb_eq in Hname. eauto.
      * intros (p & Hin & Hname).
        assert (Hf : In p (List.filter
                             (fun p => String.eqb (subreddit p) name) posts)).
        { apply filter_In. split; [exact Hin | now apply String.eqb_eq]. }
        destruct (List.filter _ posts); [contradiction | simpl; eauto].
  - destruct Hout as [-> Hex]. split; [| split].
    + split; [intros _; exact Hex | eauto].
    + intros e He. now injection He as <-.
    + intros trends name Hrun. discriminate.
Qed.

Lemma getTrendsBySubreddit_outcome_witness :
  getTrendsBySubreddit
    [example_post "gaming" "A game" "" 10 2 0;
     example_post "constructor" "Builders" "" 7 1 0]
  = Throws push_is_not_a_function.
Proof.
  destruct (getTrendsBySubreddit_outcome
              [example_post "gaming" "A game" "" 10 2 0;
               example_post "constructor" "Builders" "" 7 1 0])
    as (Hthrows & Herror & _).
  destruct (proj2 Hthrows) as [e He].
  - apply List.Exists_cons_tl, List.Exists_cons_hd. intros [_ H]. discriminate.
  - rewrite He. f_equal. now apply Herror.
Defined.

End Groups.

(** * Further properties of the Reddit client *)

(** ** The retry layer *)

Ltac settle_advances :=
  unfold advances in *; simpl in *;
  repeat match goal with H : _ /\ _ |- _ => destruct H end;
  repeat split; first [lia | congruence].

Section RetryLayer.

Import RedditClient.

Context {A : Type}.
Implicit Types (fn : Async A) (upstream : Z -> outcome A) (c : Client).

Lemma retry_server_step fn retries delay c error c' :
  fn c = (Throws error, c') ->
  is_rate_limit error = false -> is_server_error error = true ->
  retryWithBackoff fn (S retries) delay c =
  retryWithBackoff fn retries (delay * 1.5)%Q (snd (sleep delay c')).
Proof.
  intros Hfn Hrl Hse. simpl. unfold try_catch at 1. rewrite Hfn, Hrl, Hse.
  unfold bind. simpl. destruct retries; reflexivity.
Qed.

Lemma retry_other_error fn retries delay c error c' :
  fn c = (Throws error, c') -> retryable error = false ->
  retryWithBackoff fn retries delay c = (Throws error, c').
Proof.
  unfold retryable. intros Hfn Hr. apply orb_false_iff in Hr as [Hrl Hse].
  destruct retries; simpl; unfold try_catch; rewrite Hfn, Hrl; [reflexivity |].
  rewrite Hse. reflexivity.
Qed.

(** A retryable failure with a retry left: one wait, then the next
    attempt with one retry less. *)
Lemma retry_step fn retries delay c error c' :
  fn c = (Throws error, c') -> retryable error = true ->
  exists wait delay',
    retryWithBackoff fn (S retries) delay c =
    retryWithBackoff fn retries delay' (snd (sleep wait c')).
Proof.
  intros Hfn Hr. destruct (is_rate_limit error) eqn:Hrl.
  - exists (waitTime error delay), (delay * 2)%Q.
    exact (retry_rate_limit_step fn retries delay c error c' Hfn Hrl).
  - unfold retryable in Hr. rewrite Hrl in Hr. simpl in Hr.
    exists delay, (delay * 1.5)%Q.
    exact (retry_server_step fn retries delay c error c' Hfn Hrl Hr).
Qed.

Lemma numbered_run upstream c :
  exists c',
    numbered upstream c = (upstream (requestCount c + 1), c')
    /\ requestCount c' = requestCount c + 1
    /\ rateLimitRemaining c' = rateLimitRemaining c
    /\ (exists extra, slept c' = slept c ++ extra)
    /\ (rateLimitRemaining c = None -> slept c' = slept c).
Proof.
  unfold numbered, bind, enforceRateLimit.
  destruct (approaching_limit _) eqn:E; simpl.
  - eexists. split; [reflexivity |]. simpl.
    split; [reflexivity |]. split; [reflexivity |]. split; [eauto |].
    intros Hnone. unfold approaching_limit in E. simpl in E.
    rewrite Hnone in E. discriminate.
  - eexists. split; [reflexivity |]. simpl.
    split; [reflexivity |]. split; [reflexivity |]. split; [| reflexivity].
    exists []. now rewrite app_nil_r.
Qed.

Lemma sleep_run ms c :
  requestCount (snd (sleep ms c)) = requestCount c
  /\ rateLimitRemaining (snd (sleep ms c)) = rateLimitRemaining c
  /\ slept (snd (sleep ms c)) = slept c ++ [ms].
Proof. repeat split. Qed.

(** The retry layer over a numbered request makes at least one request and
    at most one more than the retries it is given, and leaves the quota
    hint of the client alone. *)
Lemma retry_advances upstream retries : forall delay c,
  advances 1 (Z.of_nat retries + 1) c
    (snd (retryWithBackoff (numbered upstream) retries delay c)).
Proof.
  induction retries as [|retries IH]; intros delay c;
    destruct (numbered_run upstream c) as (c1 & Hrun & Hcount & Hhint & _);
    destruct (upstream (requestCount c + 1)) as [a | error] eqn:Hup;
    rewrite ?Hup in Hrun.
  - rewrite (retry_success _ 0 delay c a c1 Hrun). settle_advances.
  - simpl. unfold try_catch. rewrite Hrun.
    destruct (is_rate_limit error); settle_advances.
  - rewrite (retry_success _ (S retries) delay c a c1 Hrun). settle_advances.
  - destruct (retryable error) eqn:Hr.
    + destruct (retry_step _ retries delay c error c1 Hrun Hr) as (wait & delay' & ->).
      pose proof (IH delay' (snd (sleep wait c1))) as Hrest. settle_advances.
    + rewrite (retry_other_error _ (S retries) delay c error c1 Hrun Hr).
      settle_advances.
Qed.

End RetryLayer.

Section RetryOutcomes.

Import RedditClient.

Variable getHot : string -> Z -> Z -> outcome (list Submission).

Lemma request_numbered subreddit limit :
  request getHot subreddit limit = numbered (getHot subreddit limit).
Proof. reflexivity. Qed.

(** X9: when the first [failures] requests fail with retryable errors
    (rate-limit signals or server errors, in any mix), the next request
    succeeds and the retries cover the failures, the retry layer returns
    the successful answer, after exactly [failures + 1] requests and at
    least [failures] waits. *)
Theorem retryWithBackoff_recovers subreddit limit failures : forall retries delay c posts,
  (failures <= retries)%nat ->
  (forall i, 1 <= i <= Z.of_nat failures ->
     exists error, getHot subreddit limit (requestCount c + i) = Throws error
                   /\ retryable error = true) ->
  getHot subreddit limit (requestCount c + Z.of_nat failures + 1) = Returns posts ->
  exists c',
    retryWithBackoff (request getHot subreddit limit) retries delay c = (Returns posts, c')
    /\ requestCount c' = requestCount c + Z.of_nat failures + 1
    /\ (length (slept c) + failures <= length (slept c'))%nat.
Proof.
  rewrite request_numbered.
  induction failures as [|failures IH]; intros retries delay c posts Hle Hfail Hok;
    destruct (numbered_run (getHot subreddit limit) c)
      as (c1 & Hrun & Hcount & _ & [extra Hslept] & _).
  - simpl in Hok. rewrite Z.add_0_r in Hok. rewrite Hok in Hrun.
    exists c1. rewrite (retry_success _ retries delay c posts c1 Hrun).
    repeat split; [lia |]. rewrite Hslept, length_app. lia.
  - destruct retries as [|retries]; [lia |].
    destruct (Hfail 1 ltac:(lia)) as (error & Herr & Hr). rewrite Herr in Hrun.
    destruct (retry_step _ retries delay c error c1 Hrun Hr) as (wait & delay' & ->).
    destruct (sleep_run wait c1) as (Hc2 & _ & Hs2).
    destruct (IH retries delay' (snd (sleep wait c1)) posts) as (c' & Hres & Hn & Hw).
    + lia.
    + intros i Hi. rewrite Hc2, Hcount.
      destruct (Hfail (i + 1) ltac:(lia)) as (e & He & Hre).
      exists e. split; [| exact Hre]. rewrite <- He. f_equal. lia.
    + rewrite Hc2, Hcount. rewrite <- Hok. f_equal. lia.
    + exists c'. split; [exact Hres |]. split; [lia |].
      rewrite Hs2, Hslept, !length_app in Hw. simpl in Hw. lia.
Qed.

(** X10: against an upstream whose every answer is the same server error
    (and no rate-limit signal), the retry layer makes one request more
    than its retries and throws that very error; from a client without a
    quota hint, as the constructor leaves it, the waits are the delay,
    1.5 times the delay, 2.25 times the delay and so on, one for each
    retry. *)
Theorem retryWithBackoff_server_errors subreddit limit error :
  (forall n, getHot subreddit limit n = Throws error) ->
  is_rate_limit error = false -> is_server_error error = true ->
  forall retries delay c,
    let run := retryWithBackoff (request getHot subreddit limit) retries delay c in
    fst run = Throws error
    /\ requestCount (snd run) = requestCount c + Z.of_nat retries + 1
    /\ (rateLimitRemaining c = None ->
        slept (snd run) = slept c ++ backoff_delays retries delay).
Proof.
  intros Hup Hrl Hse. rewrite request_numbered.
  induction retries as [|retries IH]; intros delay c;
    destruct (numbered_run (getHot subreddit limit) c)
      as (c1 & Hrun & Hcount & Hhint & _ & Hquiet);
    rewrite Hup in Hrun.
  - simpl. unfold try_catch. rewrite Hrun, Hrl. simpl.
    split; [reflexivity |]. split; [lia |].
    intros Hnone. rewrite (Hquiet Hnone). now rewrite app_nil_r.
  - rewrite (retry_server_step _ retries delay c error c1 Hrun Hrl Hse).
    destruct (IH (delay * 1.5)%Q (snd (sleep delay c1))) as (Hres & Hn & Hs).
    split; [exact Hres |]. split.
    + rewrite Hn. simpl. lia.
    + intros Hnone. rewrite Hs by (simpl; congruence).
      simpl. rewrite (Hquiet Hnone), <- app_assoc. reflexivity.
Qed.

(** X21: an error that is neither a rate-limit signal nor a server error
    is not retried: the retry layer rethrows it after the one request,
    without a wait of its own, whatever retries are left. *)
Theorem retryWithBackoff_other_errors subreddit limit error retries delay c :
  getHot subreddit limit (requestCount c + 1) = Throws error ->
  retryable error = false ->
  let run := retryWithBackoff (request getHot subreddit limit) retries delay c in
  run = (Throws error, snd (enforceRateLimit c))
  /\ requestCount (snd run) = requestCount c + 1
  /\ (rateLimitRemaining c = None -> slept (snd run) = slept c).
Proof.
  intros Hup Hr. rewrite request_numbered.
  destruct (numbered_run (getHot subreddit limit) c)
    as (c1 & Hrun & Hcount & _ & _ & Hquiet).
  rewrite Hup in Hrun.
  assert (Hc1 : c1 = snd (enforceRateLimit c)).
  { unfold numbered, bind in Hrun.
    destruct (enforceRateLimit_returns c) as [c2 Hc2]. rewrite Hc2 in *.
    simpl. now injection Hrun as _ <-. }
  cbv zeta. rewrite (retry_other_error _ retries delay c error c1 Hrun Hr).
  simpl. split; [now rewrite Hc1 |]. split; [exact Hcount | exact Hquiet].
Qed.

End RetryOutcomes.

Section RetryOutcomeExamples.

Import RedditClient.

Lemma retryWithBackoff_recovers_witness :
  exists c',
    retryWithBackoff (request fails_twice "technology" 50) 3 2000 fresh_client
    = (Returns [example_submission "technology" "A post"], c')
    /\ requestCount c' = 3.
Proof.
  destruct (retryWithBackoff_recovers fails_twice "technology" 50 2 3 2000
              fresh_client [example_submission "technology" "A post"])
    as (c' & Hres & Hn & _).
  - lia.
  - intros i Hi. simpl requestCount.
    assert (Hcase : i = 1 \/ i = 2) by lia.
    destruct Hcase as [-> | ->]; eexists; split; reflexivity.
  - reflexivity.
  - exists c'. split; [exact Hres | exact Hn].
Defined.

End RetryOutcomeExamples.

Section ServerErrorExample.

Import RedditClient.

Lemma retryWithBackoff_server_errors_witness :
  slept (snd (retryWithBackoff (request always_unavailable "technology" 50) 3 2000
                fresh_client))
  = [2000; 2000 * 1.5; 2000 * 1.5 * 1.5]%Q.
Proof.
  apply (retryWithBackoff_server_errors always_unavailable "technology" 50
           service_unavailable (fun n => eq_refl) eq_refl eq_refl 3 2000 fresh_client).
  reflexivity.
Defined.

End ServerErrorExample.

(** ** The batch of posts *)

Section HotPosts.

Import RedditClient.

Variable getHot : string -> Z -> Z -> outcome (list Submission).
Variable maxRetries : nat.

Lemma advances_trans lo1 hi1 lo2 hi2 c1 c2 c3 :
  advances lo1 hi1 c1 c2 -> advances lo2 hi2 c2 c3 ->
  advances (lo1 + lo2) (hi1 + hi2) c1 c3.
Proof. intros H1 H2. settle_advances. Qed.

Lemma pause_advances (b : bool) ms c :
  advances 0 0 c (snd ((if b then sleep ms else ret tt) c)).
Proof. destruct b; settle_advances. Qed.

Lemma round_advances subreddits limit allPosts subreddit c :
  advances 1 (Z.of_nat maxRetries + 1) c
    (snd (try_catch (fetch_subreddit getHot maxRetries subreddits limit allPosts subreddit)
                    (fun _ => ret allPosts) c)).
Proof.
  unfold try_catch, fetch_subreddit, bind.
  pose proof (retry_advances (getHot subreddit limit) maxRetries 2000 c) as Hretry.
  change (numbered (getHot subreddit limit)) with (request getHot subreddit limit)
    in Hretry.
  revert Hretry.
  destruct (retryWithBackoff (request getHot subreddit limit) maxRetries 2000 c)
    as [[posts | error] c1]; simpl; intros Hretry; [| exact Hretry].
  pose proof (pause_advances
                (indexOf subreddits subreddit <? Z.of_nat (length subreddits) - 1)
                1000 c1) as Hpause.
  revert Hpause.
  destruct ((if indexOf subreddits subreddit <? Z.of_nat (length subreddits) - 1
             then sleep 1000 else ret tt) c1) as [[[] | error] c2];
    simpl; intros Hpause; settle_advances.
Qed.

Lemma fetch_loop_advances subreddits limit rest : forall allPosts c,
  advances (Z.of_nat (length rest))
           (Z.of_nat (length rest) * (Z.of_nat maxRetries + 1)) c
    (snd (fetch_loop getHot maxRetries subreddits rest limit allPosts c)).
Proof.
  induction rest as [|subreddit rest IH]; intros allPosts c.
  - simpl. settle_advances.
  - change (fetch_loop getHot maxRetries subreddits (subreddit :: rest) limit allPosts c)
      with (bind (try_catch (fetch_subreddit getHot maxRetries subreddits limit
                               allPosts subreddit) (fun _ => ret allPosts))
                 (fun allPosts' =>
                    fetch_loop getHot maxRetries subreddits rest limit allPosts') c).
    unfold bind.
    pose proof (round_advances subreddits limit allPosts subreddit c) as Hround.
    destruct (round_total getHot maxRetries subreddits limit allPosts subreddit c)
      as (posts & c1 & Hc1).
    rewrite Hc1 in *. simpl in Hround.
    pose proof (IH posts c1) as Hrest.
    replace (Z.of_nat (length (subreddit :: rest)))
      with (1 + Z.of_nat (length rest)) by (simpl length; lia).
    replace ((1 + Z.of_nat (length rest)) * (Z.of_nat maxRetries + 1))
      with ((Z.of_nat maxRetries + 1)
            + Z.of_nat (length rest) * (Z.of_nat maxRetries + 1)) by lia.
    exact (advances_trans _ _ _ _ _ _ _ Hround Hrest).
Qed.

(** X11: whatever the upstream does, a batch fetch over [k] subreddits
    makes at least [k] requests and at most [k * (maxRetries + 1)], and
    never changes the quota hint [rateLimitRemaining] of the client. *)
Theorem fetchHotPosts_request_budget subreddits limit c :
  let c' := snd (fetchHotPosts getHot maxRetries subreddits limit c) in
  requestCount c + Z.of_nat (length subreddits) <= requestCount c'
  /\ requestCount c' <=
     requestCount c + Z.of_nat (length subreddits) * (Z.of_nat maxRetries + 1)
  /\ rateLimitRemaining c' = rateLimitRemaining c.
Proof. exact (fetch_loop_advances subreddits limit subreddits [] c). Qed.

Lemma fetch_loop_stable answer subreddits limit rest : forall allPosts c,
  (forall s, In s rest ->
     match answer s with
     | Some posts => forall n, getHot s limit n = Returns posts
     | None => forall n, exists error, getHot s limit n = Throws error
     end) ->
  fst (fetch_loop getHot maxRetries subreddits rest limit allPosts c) =
  Returns (allPosts ++ flat_map (contribution answer) rest).
Proof.
  induction rest as [|s rest IH]; intros allPosts c Hup.
  - simpl. now rewrite app_nil_r.
  - change (fetch_loop getHot maxRetries subreddits (s :: rest) limit allPosts c)
      with (bind (try_catch (fetch_subreddit getHot maxRetries subreddits limit
                               allPosts s) (fun _ => ret allPosts))
                 (fun allPosts' =>
                    fetch_loop getHot maxRetries subreddits rest limit allPosts') c).
    unfold bind. pose proof (Hup s (or_introl eq_refl)) as Hs.
    assert (Hrest : forall s', In s' rest ->
               match answer s' with
               | Some posts => forall n, getHot s' limit n = Returns posts
               | None => forall n, exists error, getHot s' limit n = Throws error
               end) by (intros s' H; apply Hup; now right).
    simpl flat_map. unfold contribution at 1.
    destruct (answer s) as [posts|].
    + destruct (round_returns getHot maxRetries subreddits limit allPosts s posts Hs c)
        as [c1 ->].
      rewrite (IH _ c1 Hrest). now rewrite app_assoc.
    + destruct (round_skips getHot maxRetries subreddits limit allPosts s Hs c)
        as [c1 ->].
      rewrite (IH _ c1 Hrest). reflexivity.
Qed.

(** X12: when the upstream gives each subreddit of the list the same
    answer at every request, a listing or an error, the batch returns the
    posts of the subreddits that have a listing, in the order of the list;
    a subreddit whose requests fail contributes nothing, wherever it
    stands. *)
Theorem fetchHotPosts_stable_upstream answer subreddits limit c :
  (forall s, In s subreddits ->
     match answer s with
     | Some posts => forall n, getHot s limit n = Returns posts
     | None => forall n, exists error, getHot s limit n = Throws error
     end) ->
  fst (fetchHotPosts getHot maxRetries subreddits limit c) =
  Returns (flat_map (contribution answer) subreddits).
Proof.
  intros Hup. unfold fetchHotPosts.
  exact (fetch_loop_stable answer subreddits limit subreddits [] c Hup).
Qed.

End HotPosts.

Section HotPostsExample.

Import RedditClient.

Lemma fetchHotPosts_stable_upstream_witness :
  fst (fetchHotPosts gaming_not_found 3 ["gaming"; "movies"; "gaming"; "books"] 25
         fresh_client)
  = Returns [to_post (example_submission "movies" "A post");
             to_post (example_submission "books" "A post")].
Proof.
  apply (fetchHotPosts_stable_upstream gaming_not_found 3 example_answer
           ["gaming"; "movies"; "gaming"; "books"] 25 fresh_client).
  intros s Hs. simpl in Hs.
  repeat (destruct Hs as [<- | Hs]; [simpl; intros n; first [reflexivity | eexists; reflexivity] |]).
  contradiction.
Defined.

End HotPostsExample.

(** ** The comments *)

Section Comments.

Import RedditClient.

Variable getHot : string -> Z -> Z -> outcome (list Submission).
Variable getSubmission : string -> Z -> outcome Thread.
Variable maxRetries : nat.
Variable maxPostsForComments : Z.

Lemma slice_to_In {T} (x : T) l end_ : In x (slice_to l end_) -> In x l.
Proof. unfold slice_to. apply in_firstn. Qed.

Lemma slice_to_length {T} (l : list T) end_ :
  0 <= end_ -> Z.of_nat (length (slice_to l end_)) <= end_.
Proof.
  intros H. unfold slice_to. rewrite length_firstn.
  destruct (end_ <? 0) eqn:E; [apply Z.ltb_lt in E; lia |]. lia.
Qed.

Lemma is_visible_visible reply :
  is_visible reply = true -> visible (to_comment reply).
Proof.
  unfold is_visible, visible. simpl. rewrite !andb_true_iff, !negb_true_iff.
  intros [[H1 H2] H3]. repeat split; now apply String.eqb_neq.
Qed.

Lemma shown_comments_visible thread limit :
  List.Forall visible (shown_comments thread limit).
Proof.
  apply List.Forall_forall. intros cm Hcm. unfold shown_comments in Hcm.
  apply in_map_iff in Hcm as (reply & <- & Hr). apply filter_In in Hr as [_ Hv].
  now apply is_visible_visible.
Qed.

Lemma shown_comments_length thread limit :
  0 <= limit -> Z.of_nat (length (shown_comments thread limit)) <= limit.
Proof.
  intros H. unfold shown_comments. rewrite length_map.
  pose proof (slice_to_length (thread_comments thread) limit H) as Hs.
  pose proof (filter_length_le is_visible (slice_to (thread_comments thread) limit)).
  lia.
Qed.

(** An answer that the retry layer returns is an answer of the upstream. *)
Lemma retry_returns_upstream {A} (upstream : Z -> outcome A) retries :
  forall delay c a c',
    retryWithBackoff (numbered upstream) retries delay c = (Returns a, c') ->
    exists n, upstream n = Returns a.
Proof.
  induction retries as [|retries IH]; intros delay c a c' Hres;
    destruct (numbered_run upstream c) as (c1 & Hrun & _);
    destruct (upstream (requestCount c + 1)) as [a0 | error] eqn:Hup;
    rewrite ?Hup in Hrun.
  - rewrite (retry_success _ 0 delay c a0 c1 Hrun) in Hres.
    injection Hres as <- _. eauto.
  - simpl in Hres. unfold try_catch in Hres. rewrite Hrun in Hres.
    destruct (is_rate_limit error); discriminate.
  - rewrite (retry_success _ (S retries) delay c a0 c1 Hrun) in Hres.
    injection Hres as <- _. eauto.
  - destruct (retryable error) eqn:Hr.
    + destruct (retry_step _ retries delay c error c1 Hrun Hr) as (wait & delay' & Hstep).
      rewrite Hstep in Hres. exact (IH _ _ _ _ Hres).
    + rewrite (retry_other_error _ (S retries) delay c error c1 Hrun Hr) in Hres.
      discriminate.
Qed.

(** What [fetchComments] gives: nothing, or the shown comments of a
    submission that the upstream returned and could expand. *)
Lemma fetchComments_cases postId limit c :
  advances 1 (Z.of_nat maxRetries + 1) c
    (snd (fetchComments getSubmission maxRetries postId limit c))
  /\ (fst (fetchComments getSubmission maxRetries postId limit c) = Returns []
      \/ exists n thread,
           getSubmission postId n = Returns thread
           /\ expandReplies thread limit = Returns tt
           /\ fst (fetchComments getSubmission maxRetries postId limit c)
              = Returns (shown_comments thread limit)).
Proof.
  unfold fetchComments, try_catch, bind.
  pose proof (retry_advances (getSubmission postId) maxRetries 2000 c) as Hadv.
  change (numbered (getSubmission postId))
    with (detail_request getSubmission postId) in Hadv.
  destruct (retryWithBackoff (detail_request getSubmission postId) maxRetries 2000 c)
    as [[thread | error] c1] eqn:Hretry; simpl in Hadv; simpl.
  - destruct (expandReplies thread limit) as [[] | error] eqn:Hexp; simpl.
    + split; [exact Hadv |]. right.
      destruct (retry_returns_upstream (getSubmission postId) maxRetries 2000 c
                  thread c1 Hretry) as [n Hn].
      exists n, thread. auto.
    + split; [exact Hadv | now left].
  - split; [exact Hadv | now left].
Qed.

Lemma fetchComments_returns postId limit c :
  exists comments c',
    fetchComments getSubmission maxRetries postId limit c = (Returns comments, c')
    /\ List.Forall visible comments
    /\ (0 <= limit -> Z.of_nat (length comments) <= limit)
    /\ advances 1 (Z.of_nat maxRetries + 1) c c'.
Proof.
  destruct (fetchComments_cases postId limit c) as [Hadv Hcases].
  destruct (fetchComments getSubmission maxRetries postId limit c) as [r c'].
  simpl in *. destruct Hcases as [-> | (n & thread & _ & _ & ->)].
  - exists [], c'. repeat split; try apply Hadv; [constructor | simpl; lia].
  - exists (shown_comments thread limit), c'. repeat split; try apply Hadv.
    + apply shown_comments_visible.
    + apply shown_comments_length.
Qed.

(** X13: [fetchComments] never throws, whatever the upstream does; every
    comment it returns has a body that is neither empty, [[deleted]] nor
    [[removed]], and comes from a submission that the upstream returned
    for the post; for a limit that is not negative it returns at most
    [limit] comments; it makes between 1 and [maxRetries + 1] requests. *)
Theorem fetchComments_shown postId limit c :
  exists comments c',
    fetchComments getSubmission maxRetries postId limit c = (Returns comments, c')
    /\ List.Forall visible comments
    /\ (0 <= limit -> Z.of_nat (length comments) <= limit)
    /\ (forall cm, In cm comments ->
          exists n thread reply,
            getSubmission postId n = Returns thread
            /\ In reply (thread_comments thread)
            /\ cm = to_comment reply)
    /\ requestCount c + 1 <= requestCount c'
    /\ requestCount c' <= requestCount c + Z.of_nat maxRetries + 1.
Proof.
  destruct (fetchComments_returns postId limit c) as (comments & c' & Hrun & Hv & Hl & Ha).
  exists comments, c'. split; [exact Hrun |]. split; [exact Hv |]. split; [exact Hl |].
  split; [| unfold advances in Ha; lia].
  intros cm Hcm. destruct (fetchComments_cases postId limit c) as [_ Hcases].
  rewrite Hrun in Hcases. simpl in Hcases.
  destruct Hcases as [[= ->] | (n & thread & Hn & _ & [= ->])]; [contradiction |].
  unfold shown_comments in Hcm. apply in_map_iff in Hcm as (reply & <- & Hr).
  apply filter_In in Hr as [Hr _]. apply slice_to_In in Hr.
  exists n, thread, reply. auto.
Qed.

(** X14: when the upstream returns the same submission at every request
    for a post, [fetchComments] gives its shown comments if the replies
    can be expanded, and nothing at all if expanding them fails, although
    the comments were fetched; when every request fails it gives
    nothing. *)
Theorem fetchComments_stable_upstream postId limit c :
  (forall thread, (forall n, getSubmission postId n = Returns thread) ->
     (expandReplies thread limit = Returns tt ->
      fst (fetchComments getSubmission maxRetries postId limit c)
      = Returns (shown_comments thread limit))
     /\ (forall error, expandReplies thread limit = Throws error ->
         fst (fetchComments getSubmission maxRetries postId limit c) = Returns []))
  /\ ((forall n, exists error, getSubmission postId n = Throws error) ->
      fst (fetchComments getSubmission maxRetries postId limit c) = Returns []).
Proof.
  split.
  - intros thread Hup.
    destruct (numbered_run (getSubmission postId) c) as (c1 & Hrun & _).
    rewrite Hup in Hrun.
    pose proof (retry_success (detail_request getSubmission postId) maxRetries 2000
                  c thread c1 Hrun) as Hretry.
    unfold fetchComments, try_catch, bind. rewrite Hretry. split.
    + intros ->. reflexivity.
    + intros error ->. reflexivity.
  - intros Hup. unfold fetchComments, try_catch, bind.
    destruct (retry_always_fails (detail_request getSubmission postId)) with
      (retries := maxRetries) (delay := 2000%Q) (c := c) as (error & c' & ->).
    + intros c0. destruct (numbered_run (getSubmission postId) c0) as (c1 & Hrun & _).
      destruct (Hup (requestCount c0 + 1)) as [error Herr].
      rewrite Herr in Hrun. eauto.
    + reflexivity.
Qed.

End Comments.

Section CommentsExample.

Import RedditClient.

Lemma fetchComments_shown_witness :
  exists comments c',
    fetchComments same_thread 3 "abc123" 4 fresh_client = (Returns comments, c')
    /\ Z.of_nat (length comments) <= 4.
Proof.
  destruct (fetchComments_shown same_thread 3 "abc123" 4 fresh_client)
    as (comments & c' & Hrun & _ & Hlen & _).
  exists comments, c'. split; [exact Hrun |]. apply Hlen. lia.
Defined.

Lemma fetchComments_stable_upstream_witness :
  fst (fetchComments same_thread 3 "abc123" 4 fresh_client)
  = Returns [to_comment (example_reply "First")].
Proof.
  apply (proj1 (fetchComments_stable_upstream same_thread 3 "abc123" 4 fresh_client)
           example_thread (fun n => eq_refl)).
  reflexivity.
Defined.

End CommentsExample.

(** ** Posts with their comments *)

Section PostsWithComments.

Import RedditClient.

Variable getHot : string -> Z -> Z -> outcome (list Submission).
Variable getSubmission : string -> Z -> outcome Thread.
Variable maxRetries : nat.
Variable maxPostsForComments : Z.

Lemma firstn_min_length {T} (l : list T) (m : Z) :
  firstn (Z.to_nat (Z.min (Z.of_nat (length l)) m)) l = firstn (Z.to_nat m) l.
Proof.
  destruct (Z.le_ge_cases m (Z.of_nat (length l))) as [H | H].
  - now rewrite Z.min_r.
  - rewrite Z.min_l by exact H. rewrite Nat2Z.id.
    rewrite firstn_all. symmetry. apply firstn_all2. lia.
Qed.

(** The loop over the posts from the index [i] on: it never throws, it
    adds comments of the posts before the index [postsToProcess] only, and
    it makes at most [maxRetries + 1] requests for each of them. *)
Lemma comment_loop_spec postsToProcess commentLimit rest : forall i allComments c,
  let processed := firstn (Z.to_nat (postsToProcess - i)) rest in
  exists comments c',
    comment_loop getSubmission maxRetries postsToProcess i rest commentLimit
      allComments c = (Returns (allComments ++ comments), c')
    /\ List.Forall (comment_of processed) comments
    /\ advances 0 (Z.of_nat (length processed) * (Z.of_nat maxRetries + 1)) c c'.
Proof.
  induction rest as [|post rest IH]; intros i allComments c processed.
  - exists [], c. simpl. rewrite app_nil_r. split; [reflexivity |].
    split; [constructor |]. unfold processed. rewrite firstn_nil. settle_advances.
  - simpl comment_loop. destruct (i <? postsToProcess) eqn:Hi.
    + apply Z.ltb_lt in Hi.
      assert (Hproc : processed =
                      post :: firstn (Z.to_nat (postsToProcess - (i + 1))) rest).
      { unfold processed.
        replace (Z.to_nat (postsToProcess - i))
          with (S (Z.to_nat (postsToProcess - (i + 1)))) by lia.
        reflexivity. }
      unfold bind at 1. unfold try_catch, bind.
      destruct (fetchComments_returns getSubmission maxRetries (id post) commentLimit c)
        as (found & c1 & -> & Hvis & _ & Hadv).
      pose proof (pause_advances (i <? postsToProcess - 1) 500 c1) as Hpause.
      revert Hpause.
      destruct ((if i <? postsToProcess - 1 then sleep 500 else ret tt) c1)
        as [[[] | error] c2]; simpl; intros Hpause.
      * destruct (IH (i + 1) (allComments ++ map (annotate post) found) c2)
          as (more & c' & -> & Hmore & Hadv').
        exists (map (annotate post) found ++ more), c'.
        split; [now rewrite app_assoc |]. split.
        -- rewrite Hproc. apply List.Forall_app. split.
           ++ apply List.Forall_forall. intros pc Hpc.
              apply in_map_iff in Hpc as (cm & <- & Hcm). split.
              ** exact (proj1 (List.Forall_forall _ _) Hvis cm Hcm).
              ** exists post. simpl. auto.
           ++ revert Hmore. apply List.Forall_impl.
              intros pc [Hv (p & Hp & Hrest)]. split; [exact Hv |].
              exists p. split; [now right | exact Hrest].
        -- rewrite Hproc. simpl length.
           replace (Z.of_nat (S (length (firstn (Z.to_nat (postsToProcess - (i + 1))) rest))))
             with (1 + Z.of_nat (length (firstn (Z.to_nat (postsToProcess - (i + 1))) rest)))
             by lia.
           settle_advances.
      * destruct (IH (i + 1) allComments c2) as (more & c' & -> & Hmore & Hadv').
        exists more, c'. split; [reflexivity |]. split.
        -- rewrite Hproc. revert Hmore. apply List.Forall_impl.
           intros pc [Hv (p & Hp & Hrest)]. split; [exact Hv |].
           exists p. split; [now right | exact Hrest].
        -- rewrite Hproc. simpl length.
           replace (Z.of_nat (S (length (firstn (Z.to_nat (postsToProcess - (i + 1))) rest))))
             with (1 + Z.of_nat (length (firstn (Z.to_nat (postsToProcess - (i + 1))) rest)))
             by lia.
           settle_advances.
    + apply Z.ltb_ge in Hi. exists [], c. rewrite app_nil_r.
      split; [reflexivity |]. split; [constructor |].
      unfold processed. replace (Z.to_nat (postsToProcess - i)) with 0%nat by lia.
      simpl. settle_advances.
Qed.

(** X15: [fetchPostsWithComments] never throws; its posts are those of
    [fetchHotPosts]; when there is no post it returns no comment and makes
    no further request; every comment it returns is a shown comment that
    bears the id, the title and the subreddit of one of the first
    [maxPostsForComments] posts; and after the posts it makes at most
    [maxRetries + 1] requests for each of these posts. *)
Theorem fetchPostsWithComments_structure subreddits postLimit commentLimit c :
  let hot := fetchHotPosts getHot maxRetries subreddits postLimit c in
  exists posts comments c',
    fetchPostsWithComments getHot getSubmission maxRetries maxPostsForComments
      subreddits postLimit commentLimit c = (Returns (posts, comments), c')
    /\ hot = (Returns posts, snd hot)
    /\ (posts = [] -> comments = [] /\ c' = snd hot)
    /\ List.Forall (comment_of (firstn (Z.to_nat maxPostsForComments) posts)) comments
    /\ requestCount (snd hot) <= requestCount c'
    /\ requestCount c' <=
       requestCount (snd hot)
       + Z.of_nat (length (firstn (Z.to_nat maxPostsForComments) posts))
         * (Z.of_nat maxRetries + 1)
    /\ rateLimitRemaining c' = rateLimitRemaining c.
Proof.
  intros hot.
  pose proof (fetch_loop_advances getHot maxRetries subreddits postLimit subreddits [] c)
    as Hbatch.
  destruct (fetch_loop_total getHot maxRetries subreddits postLimit subreddits [] c)
    as (posts & c1 & Hhot).
  fold (fetchHotPosts getHot maxRetries subreddits postLimit) in Hhot, Hbatch.
  unfold hot, fetchPostsWithComments, bind. rewrite Hhot in *. simpl in Hbatch. simpl snd.
  destruct posts as [|post posts].
  - exists [], [], c1. simpl. repeat split; try constructor; try lia.
    apply Hbatch.
  - set (all := post :: posts).
    destruct (comment_loop_spec (Z.min (Z.of_nat (length all)) maxPostsForComments)
                commentLimit all 0 [] c1) as (comments & c' & Hloop & Hcomments & Hadv).
    rewrite Z.sub_0_r, firstn_min_length in Hcomments, Hadv.
    rewrite Hloop. simpl. exists all, comments, c'.
    split; [reflexivity |]. split; [reflexivity |].
    split; [intros H; discriminate |]. split; [exact Hcomments |].
    settle_advances.
Qed.

End PostsWithComments.

(** * Properties of the sentiment analyzer *)

Section Sentiments.

Import SentimentAnalyzer.

Lemma above_spec score bound : above score bound = true <-> (inject_Z bound < score)%Q.
Proof.
  unfold above. rewrite negb_true_iff. split.
  - intros H. apply Qnot_le_lt. intros Hle. apply Qle_bool_iff in Hle. congruence.
  - intros H. destruct (Qle_bool score (inject_Z bound)) eqn:E; [| reflexivity].
    apply Qle_bool_iff in E. exfalso. exact (Qlt_not_le _ _ H E).
Qed.

Lemma above_false score bound :
  above score bound = false <-> (score <= inject_Z bound)%Q.
Proof.
  unfold above. rewrite negb_false_iff. apply Qle_bool_iff.
Qed.

Lemma above_integer n bound : above (inject_Z n) bound = (bound <? n).
Proof.
  unfold above, Qle_bool, inject_Z. simpl. rewrite !Z.mul_1_r.
  destruct (n <=? bound) eqn:E; simpl; symmetry.
  - apply Z.ltb_ge. now apply Z.leb_le.
  - apply Z.ltb_lt. apply Z.leb_gt in E. exact E.
Qed.

Lemma above_mono s1 s2 bound :
  (s1 <= s2)%Q -> above s1 bound = true -> above s2 bound = true.
Proof.
  rewrite !above_spec. intros H1 H2. eapply Qlt_le_trans; eauto.
Qed.

(** X16: every score gets one of the five labels, and the label never
    falls when the score rises: of two scores the larger one has a label
    of the same or of a higher rank. The ends of the bands belong to the
    lower band: 5 is Positive, 2 is Neutral, -2 is Negative and -5 is Very
    Negative. *)
Theorem categorizeSentiment_monotone :
  (forall s1 s2, (s1 <= s2)%Q ->
     exists r1 r2,
       rank (categorizeSentiment s1) = Some r1
       /\ rank (categorizeSentiment s2) = Some r2
       /\ r1 <= r2)
  /\ categorizeSentiment 5 = "Positive"
  /\ categorizeSentiment 2 = "Neutral"
  /\ categorizeSentiment (-2) = "Negative"
  /\ categorizeSentiment (-5) = "Very Negative".
Proof.
  split; [| repeat split; reflexivity].
  intros s1 s2 Hle. unfold categorizeSentiment.
  pose proof (above_mono s1 s2 5 Hle) as H5.
  pose proof (above_mono s1 s2 2 Hle) as H2.
  pose proof (above_mono s1 s2 (-2) Hle) as Hm2.
  pose proof (above_mono s1 s2 (-5) Hle) as Hm5.
  destruct (above s1 5), (above s1 2), (above s1 (-2)), (above s1 (-5));
    try (rewrite (H5 eq_refl)); try (rewrite (H2 eq_refl));
    try (rewrite (Hm2 eq_refl)); try (rewrite (Hm5 eq_refl));
    destruct (above s2 5), (above s2 2), (above s2 (-2)), (above s2 (-5));
    simpl; eexists; eexists; (split; [reflexivity |]); (split; [reflexivity |]); lia.
Qed.

Lemma categorizeSentiment_monotone_witness :
  exists r1 r2,
    rank (categorizeSentiment (-3)) = Some r1
    /\ rank (categorizeSentiment 2.4) = Some r2
    /\ r1 <= r2.
Proof.
  apply (proj1 categorizeSentiment_monotone (-3)%Q 2.4%Q).
  vm_compute. discriminate.
Defined.

Lemma count_label_cons name item items :
  count_label name (item :: items) =
  (match label_of item with
   | Some label => if String.eqb label name then 1 else 0
   | None => 0
   end) + count_label name items.
Proof.
  unfold count_label. simpl. destruct (label_of item) as [label|]; [| lia].
  destruct (String.eqb label name); simpl length; lia.
Qed.

(** The counters after the loop of [getStatistics]. *)
Lemma fold_tally items : forall stats,
  let stats' := fold_left tally items stats in
  total stats' = total stats
  /\ veryPositive stats' = veryPositive stats + count_label "Very Positive" items
  /\ stat_positive stats' = stat_positive stats + count_label "Positive" items
  /\ neutral stats' = neutral stats + count_label "Neutral" items
  /\ stat_negative stats' = stat_negative stats + count_label "Negative" items
  /\ veryNegative stats' = veryNegative stats + count_label "Very Negative" items.
Proof.
  induction items as [|item items IH]; intros stats; simpl.
  - unfold count_label. simpl. repeat split; lia.
  - destruct (IH (tally stats item)) as (H0 & H1 & H2 & H3 & H4 & H5).
    rewrite H0, H1, H2, H3, H4, H5, !count_label_cons. unfold tally. simpl.
    destruct (label_of item) as [label|]; [| repeat split; lia].
    repeat split;
      match goal with |- context [String.eqb label ?n] => destruct (String.eqb label n) end;
      lia.
Qed.

Lemma getStatistics_counters items :
  let stats := getStatistics items in
  total stats = Z.of_nat (length items)
  /\ veryPositive stats = count_label "Very Positive" items
  /\ stat_positive stats = count_label "Positive" items
  /\ neutral stats = count_label "Neutral" items
  /\ stat_negative stats = count_label "Negative" items
  /\ veryNegative stats = count_label "Very Negative" items.
Proof.
  destruct items as [|item items]; [repeat split |].
  set (all := item :: items).
  set (start := {| total := Z.of_nat (length all); veryPositive := 0;
                   stat_positive := 0; neutral := 0; stat_negative := 0;
                   veryNegative := 0; totalScore := Some 0%Q; averageScore := 0 |}).
  destruct (fold_tally all start) as (H0 & H1 & H2 & H3 & H4 & H5).
  intros stats.
  change (total stats) with (total (fold_left tally all start)).
  change (veryPositive stats) with (veryPositive (fold_left tally all start)).
  change (stat_positive stats) with (stat_positive (fold_left tally all start)).
  change (neutral stats) with (neutral (fold_left tally all start)).
  change (stat_negative stats) with (stat_negative (fold_left tally all start)).
  change (veryNegative stats) with (veryNegative (fold_left tally all start)).
  rewrite H0, H1, H2, H3, H4, H5. simpl. repeat split; lia.
Qed.

Section Library.

Variable library : string -> LibraryResult.

Lemma comment_label c :
  label_of (comment_item (c, analyze library (body c))) =
  Some (categorizeSentiment (inject_Z (lib_score (library (body c))))).
Proof. reflexivity. Qed.

Lemma filter_map_length {X Y} (g : X -> Y) (p : Y -> bool) l :
  length (List.filter p (map g l)) = length (List.filter (fun x => p (g x)) l).
Proof.
  induction l as [|x l IH]; simpl; [reflexivity |].
  destruct (p (g x)); simpl; now rewrite IH.
Qed.

Lemma count_label_comments name band comments :
  (forall n, String.eqb (categorizeSentiment (inject_Z n)) name = band n) ->
  count_label name (map comment_item (analyzeComments library comments)) =
  scored_in library band comments.
Proof.
  intros Hband. unfold count_label, scored_in, analyzeComments. f_equal.
  rewrite map_map, filter_map_length. f_equal.
  apply filter_ext_eq. intros c. rewrite comment_label. apply Hband.
Qed.

Lemma band_of_integer n :
  String.eqb (categorizeSentiment (inject_Z n)) "Very Positive" = (5 <? n)
  /\ String.eqb (categorizeSentiment (inject_Z n)) "Positive" = ((2 <? n) && (n <=? 5))
  /\ String.eqb (categorizeSentiment (inject_Z n)) "Neutral" = ((-2 <? n) && (n <=? 2))
  /\ String.eqb (categorizeSentiment (inject_Z n)) "Negative" = ((-5 <? n) && (n <=? -2))
  /\ String.eqb (categorizeSentiment (inject_Z n)) "Very Negative" = (n <=? -5).
Proof.
  unfold categorizeSentiment. rewrite !above_integer.
  destruct (5 <? n) eqn:E5; destruct (2 <? n) eqn:E2;
    destruct (-2 <? n) eqn:E3; destruct (-5 <? n) eqn:E4;
    destruct (n <=? 5) eqn:F5; destruct (n <=? 2) eqn:F2;
    destruct (n <=? -2) eqn:F3; destruct (n <=? -5) eqn:F4;
    simpl; repeat split; try reflexivity; exfalso;
    repeat match goal with
           | H : (_ <? _) = true |- _ => apply Z.ltb_lt in H
           | H : (_ <? _) = false |- _ => apply Z.ltb_ge in H
           | H : (_ <=? _) = true |- _ => apply Z.leb_le in H
           | H : (_ <=? _) = false |- _ => apply Z.leb_gt in H
           end; lia.
Qed.

Lemma bands_partition comments :
  scored_in library (fun n => 5 <? n) comments
  + scored_in library (fun n => (2 <? n) && (n <=? 5)) comments
  + scored_in library (fun n => (-2 <? n) && (n <=? 2)) comments
  + scored_in library (fun n => (-5 <? n) && (n <=? -2)) comments
  + scored_in library (fun n => n <=? -5) comments
  = Z.of_nat (length comments).
Proof.
  unfold scored_in. induction comments as [|c comments IH]; [reflexivity |].
  simpl List.filter. set (n := lib_score (library (body c))).
  destruct (5 <? n) eqn:E5; destruct (2 <? n) eqn:E2;
    destruct (-2 <? n) eqn:E3; destruct (-5 <? n) eqn:E4;
    destruct (n <=? 5) eqn:F5; destruct (n <=? 2) eqn:F2;
    destruct (n <=? -2) eqn:F3; destruct (n <=? -5) eqn:F4;
    simpl andb; cbv iota; simpl length; try lia; exfalso;
    repeat match goal with
           | H : (_ <? _) = true |- _ => apply Z.ltb_lt in H
           | H : (_ <? _) = false |- _ => apply Z.ltb_ge in H
           | H : (_ <=? _) = true |- _ => apply Z.leb_le in H
           | H : (_ <=? _) = false |- _ => apply Z.leb_gt in H
           end; lia.
Qed.

(** X17: the statistics of analyzed comments sort the comments into the
    five bands of the score that the library gives to their text: above 5,
    above 2 up to 5, above -2 up to 2, above -5 up to -2, and -5 or less;
    the total is the number of comments and the five counters add up to
    it, also for no comment at all. *)
Theorem getStatistics_of_comments comments :
  let stats := getStatistics (map comment_item (analyzeComments library comments)) in
  total stats = Z.of_nat (length comments)
  /\ veryPositive stats = scored_in library (fun n => 5 <? n) comments
  /\ stat_positive stats = scored_in library (fun n => (2 <? n) && (n <=? 5)) comments
  /\ neutral stats = scored_in library (fun n => (-2 <? n) && (n <=? 2)) comments
  /\ stat_negative stats = scored_in library (fun n => (-5 <? n) && (n <=? -2)) comments
  /\ veryNegative stats = scored_in library (fun n => n <=? -5) comments
  /\ counted stats = total stats.
Proof.
  intros stats.
  destruct (getStatistics_counters (map comment_item (analyzeComments library comments)))
    as (H0 & H1 & H2 & H3 & H4 & H5).
  fold stats in H0, H1, H2, H3, H4, H5.
  unfold analyzeComments in H0. rewrite !length_map in H0.
  rewrite (count_label_comments "Very Positive" (fun n => 5 <? n)) in H1
    by (intros n; apply (band_of_integer n)).
  rewrite (count_label_comments "Positive" (fun n => (2 <? n) && (n <=? 5))) in H2
    by (intros n; apply (band_of_integer n)).
  rewrite (count_label_comments "Neutral" (fun n => (-2 <? n) && (n <=? 2))) in H3
    by (intros n; apply (band_of_integer n)).
  rewrite (count_label_comments "Negative" (fun n => (-5 <? n) && (n <=? -2))) in H4
    by (intros n; apply (band_of_integer n)).
  rewrite (count_label_comments "Very Negative" (fun n => n <=? -5)) in H5
    by (intros n; apply (band_of_integer n)).
  repeat split; try assumption.
  unfold counted. rewrite H0, H1, H2, H3, H4, H5. apply bands_partition.
Qed.

End Library.

End Sentiments.

(** * Further properties of the keyword analysis *)

Section Normalisation.

Import TrendAnalyzer.






End Normalisation.

Section Occurrences.

Import TrendAnalyzer.

Lemma count_in_extractKeywords text k :
  k <> "constructor" -> k <> "__proto__" ->
  count_in (extractKeywords text) k =
  Z.of_nat (count_occ string_dec (words_of text) k).
Proof. intros Hc Hp. apply binds_count_in. now apply extractKeywords_binds. Qed.

Lemma plain_key_word k : k <> "constructor" -> k <> "__proto__" ->
  forall text, In k (words_of text) -> plain k.
Proof. intros Hc Hp text Hin. now apply (plain_word text). Qed.

Lemma count_in_post_frequencies post k :
  plain k -> k <> "constructor" ->
  count_in (post_frequencies post) k =
  Z.of_nat (count_occ string_dec (post_words post) k).
Proof.
  intros Hk Hc. rewrite post_frequencies_eq.
  assert (Hp : k <> "__proto__") by apply Hk.
  rewrite (binds_count_in _ _ _
             (mergeFrequencies_binds
                [extractKeywords (title post); extractKeywords (text post)] k
                ltac:(repeat constructor; apply frequency_map_extractKeywords) Hk)).
  simpl. rewrite !count_in_extractKeywords by assumption.
  unfold post_words. rewrite count_occ_app. lia.
Qed.

Lemma count_occ_flat_map {X} (f : X -> list string) k l :
  Z.of_nat (count_occ string_dec (flat_map f l) k) =
  sum_Z (map (fun x => Z.of_nat (count_occ string_dec (f x) k)) l).
Proof.
  induction l as [|x l IH]; simpl; [reflexivity |].
  rewrite count_occ_app, Nat2Z.inj_add, IH. reflexivity.
Qed.

Lemma sum_Z_ext {X} (f g : X -> Z) l :
  (forall x, f x = g x) -> sum_Z (map f l) = sum_Z (map g l).
Proof.
  intros H. induction l as [|x l IH]; simpl; [reflexivity | now rewrite H, IH].
Qed.

(** X19: an entry that the analysis of posts reports for a keyword other
    than [constructor] and [__proto__] carries the number of occurrences
    of the keyword among the words of all titles and texts, and this
    number is at least the threshold. *)
Theorem analyzeTrendingKeywords_reports_occurrences posts minFrequency e :
  In e (analyzeTrendingKeywords posts minFrequency) ->
  keyword e <> "constructor" -> keyword e <> "__proto__" ->
  let occurrences := Z.of_nat (count_occ string_dec (all_words posts) (keyword e)) in
  count e = Js.JNum occurrences /\ minFrequency <= occurrences /\ 1 <= occurrences.
Proof.
  intros He Hc Hp occurrences.
  unfold analyzeTrendingKeywords, getTopKeywords in He.
  apply in_map_iff in He as ([k v] & <- & He). simpl in *.
  apply in_firstn in He. apply (proj1 (sort_entries_In _ _)) in He.
  apply filter_frequent_entries in He as (Hin & n & -> & Hn).
  destruct (merged_posts_spec posts) as ([Hnd Hcounts] & Hsub & _).
  assert (Hword : In k (all_words posts)) by (apply Hsub; now apply (in_keys _ k (Js.JNum n))).
  assert (Hk : plain k).
  { unfold all_words in Hword. apply in_flat_map in Hword as (post & _ & Hw).
    apply in_app_or in Hw as [Hw | Hw]; now apply (plain_word _ k Hw). }
  pose proof (entry_own _ k (Js.JNum n) Hnd Hin) as Hown.
  assert (Hmaps : List.Forall frequency_map (map post_frequencies posts)).
  { apply List.Forall_forall. intros m Hm. apply in_map_iff in Hm as (post & <- & _).
    apply post_frequencies_spec. }
  pose proof (mergeFrequencies_binds (map post_frequencies posts) k Hmaps Hk) as Hb.
  rewrite map_map in Hb.
  rewrite (sum_Z_ext _ (fun post => Z.of_nat (count_occ string_dec (post_words post) k)))
    in Hb by (intros post; now apply count_in_post_frequencies).
  rewrite <- (count_occ_flat_map post_words k posts) in Hb.
  fold (all_words posts) in Hb. fold occurrences in Hb.
  destruct Hb as [[_ Hnone] | [Hpos Hsome]]; [congruence |].
  rewrite Hown in Hsome. injection Hsome as ->. auto.
Qed.

Lemma analyzeTrendingKeywords_reports_occurrences_witness :
  count {| keyword := "game"; count := Js.JNum 3 |} = Js.JNum 3.
Proof.
  apply (analyzeTrendingKeywords_reports_occurrences
           [example_post "gaming" "Game after game" "the GAME!" 10 2 0] 2
           {| keyword := "game"; count := Js.JNum 3 |}).
  - vm_compute. auto.
  - discriminate.
  - discriminate.
Defined.

End Occurrences.

(** ** The pauses between the subreddits *)

Section Pauses.

Import RedditClient.

Variable getHot : string -> Z -> Z -> outcome (list Submission).
Variable maxRetries : nat.

Lemma indexOf_nonneg_in l s : In s l -> 0 <= indexOf l s < Z.of_nat (length l).
Proof.
  induction l as [|x l IH]; [intros [] |].
  intros Hin. simpl indexOf. destruct (String.eqb x s) eqn:E.
  - simpl length. lia.
  - destruct Hin as [-> | Hin]; [rewrite String.eqb_refl in E; discriminate |].
    specialize (IH Hin). destruct (indexOf l s <? 0) eqn:E0;
      [apply Z.ltb_lt in E0; lia |]. simpl length. lia.
Qed.

Lemma indexOf_app_in l r s : In s l -> indexOf (l ++ r) s = indexOf l s.
Proof.
  induction l as [|x l IH]; [intros [] |].
  intros Hin. simpl. destruct (String.eqb x s) eqn:E; [reflexivity |].
  destruct Hin as [-> | Hin]; [rewrite String.eqb_refl in E; discriminate |].
  now rewrite IH.
Qed.

Lemma indexOf_app_out l r s :
  ~ In s l -> indexOf (l ++ s :: r) s = Z.of_nat (length l).
Proof.
  induction l as [|x l IH]; intros Hout.
  - simpl. now rewrite String.eqb_refl.
  - simpl app. simpl indexOf. destruct (String.eqb x s) eqn:E.
    + apply String.eqb_eq in E. subst x. exfalso. apply Hout. now left.
    + rewrite IH by (intros H; apply Hout; now right).
      destruct (Z.of_nat (length l) <? 0) eqn:E0; [apply Z.ltb_lt in E0; lia |].
      simpl length. lia.
Qed.

(** One round for a subreddit that the upstream answers at once, from a
    client without a quota hint: no wait but the pause. *)
Lemma round_quiet subreddits limit allPosts subreddit posts c :
  (forall n, getHot subreddit limit n = Returns posts) ->
  rateLimitRemaining c = None ->
  let c' := snd (try_catch
                   (fetch_subreddit getHot maxRetries subreddits limit allPosts subreddit)
                   (fun _ => ret allPosts) c) in
  slept c' = slept c ++ pause_after subreddits subreddit
  /\ rateLimitRemaining c' = None.
Proof.
  intros Hup Hnone. unfold try_catch, fetch_subreddit, bind.
  destruct (numbered_run (getHot subreddit limit) c) as (c1 & Hrun & _ & Hhint & _ & Hquiet).
  rewrite Hup in Hrun.
  rewrite (retry_success (request getHot subreddit limit) maxRetries 2000 c posts c1 Hrun).
  unfold pause_after.
  destruct (indexOf subreddits subreddit <? Z.of_nat (length subreddits) - 1); simpl.
  - rewrite (Hquiet Hnone). split; [reflexivity | congruence].
  - rewrite (Hquiet Hnone), app_nil_r. split; [reflexivity | congruence].
Qed.

Lemma fetch_loop_quiet subreddits limit rest : forall allPosts c,
  (forall s, In s rest -> exists posts, forall n, getHot s limit n = Returns posts) ->
  rateLimitRemaining c = None ->
  slept (snd (fetch_loop getHot maxRetries subreddits rest limit allPosts c)) =
  slept c ++ flat_map (pause_after subreddits) rest.
Proof.
  induction rest as [|s rest IH]; intros allPosts c Hup Hnone.
  - simpl. now rewrite app_nil_r.
  - change (fetch_loop getHot maxRetries subreddits (s :: rest) limit allPosts c)
      with (bind (try_catch (fetch_subreddit getHot maxRetries subreddits limit
                               allPosts s) (fun _ => ret allPosts))
                 (fun allPosts' =>
                    fetch_loop getHot maxRetries subreddits rest limit allPosts') c).
    unfold bind. destruct (Hup s (or_introl eq_refl)) as [posts Hs].
    pose proof (round_quiet subreddits limit allPosts s posts c Hs Hnone) as Hround.
    destruct (round_total getHot maxRetries subreddits limit allPosts s c)
      as (posts' & c1 & Hc1).
    rewrite Hc1 in *. simpl in Hround. destruct Hround as [Hslept Hnone1].
    rewrite IH; [| intros s' H; apply Hup; now right | exact Hnone1].
    rewrite Hslept, <- app_assoc. reflexivity.
Qed.

Lemma pauses_before_last l last :
  flat_map (pause_after (l ++ [last])) l = repeat 1000%Q (length l).
Proof.
  assert (H : forall pre, incl pre l ->
             flat_map (pause_after (l ++ [last])) pre = repeat 1000%Q (length pre)).
  { induction pre as [|x pre IH]; intros Hincl; [reflexivity |].
    simpl flat_map. rewrite IH by (intros y Hy; apply Hincl; now right).
    assert (Hx : In x l) by (apply Hincl; now left).
    unfold pause_after at 1. rewrite indexOf_app_in by exact Hx.
    pose proof (indexOf_nonneg_in l x Hx) as Hb.
    rewrite length_app. simpl length.
    destruct (_ <? _) eqn:E; [reflexivity |]. apply Z.ltb_ge in E. lia. }
  apply H. apply incl_refl.
Qed.

(** X20: from a client without a quota hint and against an upstream that
    answers every request, the batch waits only between the subreddits:
    1000 ms after each subreddit but the last. After the last one it
    waits only if its name also stands earlier in the list. *)
Theorem fetchHotPosts_pauses l last limit c :
  (forall s, In s (l ++ [last]) ->
     exists posts, forall n, getHot s limit n = Returns posts) ->
  rateLimitRemaining c = None ->
  slept (snd (fetchHotPosts getHot maxRetries (l ++ [last]) limit c)) =
  slept c ++ repeat 1000%Q (length l)
          ++ (if in_dec string_dec last l then [1000%Q] else []).
Proof.
  intros Hup Hnone. unfold fetchHotPosts.
  rewrite (fetch_loop_quiet (l ++ [last]) limit (l ++ [last]) [] c Hup Hnone).
  f_equal. rewrite flat_map_app, pauses_before_last. f_equal.
  simpl. rewrite app_nil_r. unfold pause_after.
  rewrite length_app. simpl length.
  destruct (in_dec string_dec last l) as [Hin | Hout].
  - rewrite indexOf_app_in by exact Hin.
    pose proof (indexOf_nonneg_in l last Hin) as Hb.
    destruct (_ <? _) eqn:E; [reflexivity |]. apply Z.ltb_ge in E. lia.
  - rewrite indexOf_app_out by exact Hout.
    destruct (_ <? _) eqn:E; [| reflexivity]. apply Z.ltb_lt in E. lia.
Qed.

End Pauses.

Section PausesExample.

Import RedditClient.

Lemma fetchHotPosts_pauses_witness :
  slept (snd (fetchHotPosts always_answers 3 (["technology"; "gaming"] ++ ["movies"]) 25
                fresh_client))
  = [1000; 1000]%Q.
Proof.
  apply (fetchHotPosts_pauses always_answers 3 ["technology"; "gaming"] "movies" 25
           fresh_client).
  - intros s _. eexists. intros n. reflexivity.
  - reflexivity.
Defined.

End PausesExample.

Section PostsWithCommentsExample.

Import RedditClient.

Lemma fetchPostsWithComments_structure_witness :
  exists c',
    fetchPostsWithComments always_limited same_thread 3 20 ["technology"] 50 20
      fresh_client = (Returns ([], []), c').
Proof.
  destruct (fetchPostsWithComments_structure always_limited same_thread 3 20
              ["technology"] 50 20 fresh_client)
    as (posts & comments & c' & Hrun & Hhot & Hempty & _).
  assert (Hposts : posts = []).
  { apply (f_equal fst) in Hhot. vm_compute in Hhot. now injection Hhot as <-. }
  destruct (Hempty Hposts) as [-> _]. subst posts. exists c'. exact Hrun.
Defined.

End PostsWithCommentsExample.

Section OtherErrorExample.

Import RedditClient.

Lemma retryWithBackoff_other_errors_witness :
  retryWithBackoff (request gaming_not_found "gaming" 50) 3 2000 fresh_client
  = (Throws not_found, snd (enforceRateLimit fresh_client)).
Proof.
  apply (retryWithBackoff_other_errors gaming_not_found "gaming" 50 not_found 3 2000
           fresh_client); reflexivity.
Defined.

End OtherErrorExample.
